(** * triage_version.py: version ordering, flag gating and output comparison

    A shallow embedding of [tools/triage_py/triage_version.py].  The script
    lists the sub-directories of a root folder, orders them (as versions, or
    as commit hashes through [git rev-list]), runs the [cppcheck] binary of
    every folder on one input file and reports where exit code or output
    change.

    Strings are [string]s over the code points 0..255.  The file system and
    the sub-processes are a record of oracles ([World]); what the script
    prints and what it does to its sub-processes is recorded as a list of
    events, and [sys.exit] and uncaught exceptions are results. *)

From Stdlib Require Import String Ascii List ZArith NArith Bool Lia.
From Stdlib Require Import Permutation Sorted DecimalString.
Import ListNotations.
Open Scope list_scope.
Open Scope string_scope.

(** ** Python string primitives *)

Module Py.

(** [str.isspace] on one code point below 256. *)
Definition isspace (c : ascii) : bool :=
  let n := N_of_ascii c in
  ((9 <=? n) && (n <=? 13) || (28 <=? n) && (n <=? 32)
   || (n =? 133) || (n =? 160))%N.

(** Line boundaries of [str.splitlines], apart from the pair CR LF. *)
Definition islinebreak (c : ascii) : bool :=
  let n := N_of_ascii c in
  ((10 <=? n) && (n <=? 13) || (28 <=? n) && (n <=? 30) || (n =? 133))%N.

Definition nl : string := String (ascii_of_N 10) "".
Definition cr : ascii := ascii_of_N 13.
Definition lf : ascii := ascii_of_N 10.

Definition is_empty (s : string) : bool :=
  match s with EmptyString => true | _ => false end.

Definition snoc (s : string) (c : ascii) : string := s ++ String c "".

Definition flush (tok : string) : list string :=
  if is_empty tok then [] else [tok].

(** [s.split()]: the maximal runs of non-space characters. *)
Fixpoint split_go (tok s : string) : list string :=
  match s with
  | EmptyString => flush tok
  | String c r =>
      if isspace c then (flush tok ++ split_go "" r)%list
      else split_go (snoc tok c) r
  end.

Definition split (s : string) : list string := split_go "" s.

(** [s.splitlines()]: a line ends at a line boundary (CR LF counts once),
    and a trailing boundary opens no empty last line. *)
Fixpoint splitlines_go (cur s : string) : list string :=
  match s with
  | EmptyString => flush cur
  | String c r =>
      if Ascii.eqb c cr then
        match r with
        | String d r' =>
            if Ascii.eqb d lf then cur :: splitlines_go "" r'
            else cur :: splitlines_go "" r
        | EmptyString => [cur]
        end
      else if islinebreak c then cur :: splitlines_go "" r
      else splitlines_go (snoc cur c) r
  end.

Definition splitlines (s : string) : list string := splitlines_go "" s.

Fixpoint lstrip (s : string) : string :=
  match s with
  | String c r => if isspace c then lstrip r else s
  | EmptyString => ""
  end.

Fixpoint rstrip (s : string) : string :=
  match s with
  | String c r =>
      let r' := rstrip r in
      if is_empty r' && isspace c then "" else String c r'
  | EmptyString => ""
  end.

(** [s.strip()] *)
Definition strip (s : string) : string := rstrip (lstrip s).

(** [s.startswith(p)] *)
Definition startswith (s p : string) : bool := String.prefix p s.

(** [s.replace(old, new)] for a non-empty [old]: the occurrences are taken
    from the left and do not overlap; [skip] counts the characters of a
    matched occurrence that are still to be dropped. *)
Fixpoint replace_go (old new : string) (skip : nat) (s : string) : string :=
  match s with
  | EmptyString => ""
  | String c r =>
      match skip with
      | S k => replace_go old new k r
      | O =>
          if String.prefix old s
          then new ++ replace_go old new (String.length old - 1) r
          else String c (replace_go old new 0 r)
      end
  end.

Definition replace (old new s : string) : string := replace_go old new 0 s.

(** [sep.join(l)] *)
Definition join (sep : string) (l : list string) : string :=
  String.concat sep l.

(** [str(n)] for an integer. *)
Definition str_int (z : Z) : string := NilZero.string_of_int (Z.to_int z).

(** [str(x)] for a value that is [None] or a string / an integer. *)
Definition str_opt (o : option string) : string :=
  match o with Some s => s | None => "None" end.

Definition str_opt_int (o : option Z) : string :=
  match o with Some z => str_int z | None => "None" end.

(** [os.path.join(a, b)] on POSIX. *)
Fixpoint ends_with_slash (s : string) : bool :=
  match s with
  | EmptyString => false
  | String c EmptyString => Ascii.eqb c "/"
  | String _ r => ends_with_slash r
  end.

Definition path_join (a b : string) : string :=
  if startswith b "/" then b
  else if is_empty a || ends_with_slash a then a ++ b
  else a ++ "/" ++ b.

End Py.

(** ** Effects: printed lines, sub-process operations, exits, exceptions *)

Inductive event : Type :=
| Print (text : string)
    (* print(x): str(x) and a newline on standard output *)
| Popen (argv : list string) (cwd : option string)
| CommunicateT (timeout : Z)   (* p.communicate(timeout=t) *)
| Communicate                  (* p.communicate() *)
| ReadStdout                   (* p.stdout.read() *)
| Kill.                        (* p.kill() *)

Inductive exn : Type :=
| InvalidVersion (s : string)
| IndexError.

Inductive res (A : Type) : Type :=
| Ok (a : A)
| SysExit (code : Z)
| Uncaught (e : exn).
Arguments Ok {A} a.
Arguments SysExit {A} code.
Arguments Uncaught {A} e.

(** A computation: the events it performed, and how it ended. *)
Definition M (A : Type) : Type := (list event * res A)%type.

Definition ret {A} (a : A) : M A := ([], Ok a).

Definition bind {A B} (m : M A) (f : A -> M B) : M B :=
  match m with
  | (t, Ok a) => let (t', r) := f a in ((t ++ t')%list, r)
  | (t, SysExit c) => (t, SysExit c)
  | (t, Uncaught e) => (t, Uncaught e)
  end.

Definition emit (e : event) : M unit := ([e], Ok tt).
Definition print (s : string) : M unit := emit (Print s).
Definition sys_exit {A} (c : Z) : M A := ([], SysExit c).
Definition raise {A} (e : exn) : M A := ([], Uncaught e).

(** [if c: body] *)
Definition when (c : bool) (m : M unit) : M unit := if c then m else ret tt.

(** [try: m / except: h] with a bare [except], which also catches
    [SystemExit]. *)
Definition try_except {A} (m : M A) (h : M A) : M A :=
  match m with
  | (t, Ok a) => (t, Ok a)
  | (t, _) => let (t', r) := h in ((t ++ t')%list, r)
  end.

Declare Scope py_scope.
Delimit Scope py_scope with py.
Notation "x <- m ;; k" := (bind m (fun x => k))
  (at level 61, m at next level, right associativity) : py_scope.
Notation "' p <- m ;; k" := (bind m (fun x => match x with p => k end))
  (at level 61, p pattern, m at next level, right associativity) : py_scope.
Notation "m ;; k" := (bind m (fun _ => k))
  (at level 61, right associativity) : py_scope.
Open Scope py_scope.

(** [for x in l: st = body(st, x)] *)
Fixpoint for_each {S X} (body : S -> X -> M S) (l : list X) (st : S) : M S :=
  match l with
  | [] => ret st
  | x :: l' => st' <- body st x ;; for_each body l' st'
  end.

(** The lines written to standard output. *)
Definition stdout_of (t : list event) : list string :=
  flat_map (fun e => match e with Print s => [s] | _ => [] end) t.

(** ** The version library

    [packaging.version.Version] is a third-party class: the script only
    constructs versions from strings (which raises [InvalidVersion] on a
    string that is no version) and compares them with [>=], [<=] and,
    inside [list.sort], [<].  All three compare the same key, so one
    relation [ver_le] stands for them. *)

Class VersionLib : Type := {
  Ver : Type;
  Version : string -> option Ver;
  ver_le : Ver -> Ver -> bool
}.

(** The version literals of the script, lines 104 to 116 and 146. *)
Definition threshold_literals : list string :=
  ["1.39"; "1.40"; "1.45"; "1.48"; "1.49"; "1.61"].

Class VersionLaws (L : VersionLib) : Prop := {
  ver_le_total : forall a b : Ver, ver_le a b = true \/ ver_le b a = true;
  ver_le_trans : forall a b c : Ver,
      ver_le a b = true -> ver_le b c = true -> ver_le a c = true;
  literals_parse : forall s, In s threshold_literals -> Version s <> None;
  literal_148_149 : forall a b,
      Version "1.48" = Some a -> Version "1.49" = Some b -> ver_le a b = true
}.

Section Program.

Context {L : VersionLib}.

(** [Version(s)] *)
Definition mkVersion (s : string) : M Ver :=
  match Version s with
  | Some v => ret v
  | None => raise (InvalidVersion s)
  end.

(** [Version(a) >= Version(b)] *)
Definition version_ge (a b : string) : M bool :=
  va <- mkVersion a ;; vb <- mkVersion b ;; ret (ver_le vb va).

(** [Version(a) <= Version(b)] *)
Definition version_le (a b : string) : M bool :=
  va <- mkVersion a ;; vb <- mkVersion b ;; ret (ver_le va vb).

(** [x and y], [x or y] with Python's short circuit. *)
Definition and_then (x : bool) (y : M bool) : M bool :=
  if x then y else ret false.

Definition or_else (x : M bool) (y : M bool) : M bool :=
  b <- x ;; if b then ret true else y.

(** *** Command line arguments and the outside world *)

(** The namespace returned by [parser.parse_args()], lines 9 to 20. *)
Record Args : Type := {
  dir : string;
  infile : string;
  repo : option string;
  compare : bool;
  verbose : bool;
  debug : bool;
  debug_warnings : bool;
  check_library : bool;
  timeout : Z;
  compact : bool
}.

(** The namespace for a command line of the two positional arguments only:
    every [store_true] flag is off, [repo] is [None], [--timeout] is 2. *)
Definition parser_defaults (d f : string) : Args :=
  {| dir := d; infile := f; repo := None; compare := false; verbose := false;
     debug := false; debug_warnings := false; check_library := false;
     timeout := 2; compact := false |}.

(** How a run of the analysed binary under [communicate(timeout=t)] ends:
    within the time, or not (then [returncode] is read after the kill).
    A process that cannot be started, or whose output cannot be decoded
    (an [OSError] or a [UnicodeDecodeError] of [Popen] or [communicate],
    which the script does not catch), is not among the outcomes: the
    oracles of [World] describe folders in which every binary starts and
    answers. *)
Inductive proc_outcome : Type :=
| Completed (stdout stderr : string) (returncode : Z)
| TimedOut (returncode : Z).

Record World : Type := {
  listdir : string -> list string;
  isdir : string -> bool;
  (* argv, cwd |-> returncode, stdout, stderr of the git query *)
  git_rev_list : list string -> option string -> Z * string * string;
  (* argv |-> stdout of the version query *)
  cppcheck_version : list string -> string;
  (* argv, cwd, timeout |-> how the analysis run ends *)
  cppcheck_run : list string -> string -> Z -> proc_outcome
}.

Variable a : Args.
Variable w : World.

(** *** sort_commit_hashes, lines 22 to 30 *)

Definition git_cmd (commits : list string) : string :=
  "git rev-list --abbrev-commit --topo-order --no-walk=sorted --reverse "
  ++ Py.join " " commits.

Definition sort_commit_hashes (commits : list string) : M (list string) :=
  let argv := Py.split (git_cmd commits) in
  emit (Popen argv (repo a)) ;;
  emit Communicate ;;
  let '(returncode, stdout, stderr) := git_rev_list w argv (repo a) in
  when (negb (returncode =? 0)%Z)
       (print "error: sorting commit hashes failed" ;;
        print stderr ;;
        sys_exit 1) ;;
  ret (Py.splitlines stdout).

(** *** The version enumerator, lines 46 to 79 *)

(** Lines 46 to 50. *)
Definition list_versions : list string :=
  filter (fun filename => isdir w (Py.path_join (dir a) filename))
         (listdir w (dir a)).

(** [versions.sort(key=Version)]: the keys are computed first (a key that
    cannot be computed raises and leaves the list as it was), then the
    list is sorted stably with [<] on the keys. *)
Fixpoint keys_of (l : list string) : M (list (Ver * string)) :=
  match l with
  | [] => ret []
  | s :: l' => k <- mkVersion s ;; r <- keys_of l' ;; ret ((k, s) :: r)
  end.

Definition ver_lt (x y : Ver) : bool := negb (ver_le y x).

Fixpoint insert_by_key (x : Ver * string) (l : list (Ver * string))
  : list (Ver * string) :=
  match l with
  | [] => [x]
  | y :: l' =>
      if ver_lt (fst y) (fst x) then y :: insert_by_key x l' else x :: y :: l'
  end.

Definition sort_keyed (l : list (Ver * string)) : list (Ver * string) :=
  fold_right insert_by_key [] l.

Definition sort_by_version (versions : list string) : M (list string) :=
  ks <- keys_of versions ;; ret (map snd (sort_keyed ks)).

(** [if not git_repo]: [None] and the empty string are false. *)
Definition truthy (o : option string) : bool :=
  match o with Some s => negb (Py.is_empty s) | None => false end.

Fixpoint remove_first (x : string) (l : list string) : list string :=
  match l with
  | [] => []
  | y :: l' => if String.eqb y x then l' else y :: remove_first x l'
  end.

(** Lines 59 to 62, the body of [try]. *)
Definition order_as_versions (versions : list string) : M (bool * list string) :=
  match versions with
  | [] => raise IndexError
  | v0 :: _ =>
      mkVersion v0 ;;
      sorted <- sort_by_version versions ;;
      ret (false, sorted)
  end.

(** Lines 64 to 79, the body of [except]. *)
Definition order_as_hashes (versions : list string) : M (bool * list string) :=
  when (verbose a)
       (match versions with
        | v0 :: _ => print ("'" ++ v0 ++ "' not a version - assuming commit hashes")
        | [] => raise IndexError
        end) ;;
  when (negb (truthy (repo a)))
       (print "error: git repository argument required for commit hash sorting" ;;
        sys_exit 1) ;;
  when (verbose a)
       (print ("using git repository '" ++ Py.str_opt (repo a)
               ++ "' to sort commit hashes")) ;;
  let versions :=
    if existsb (String.eqb "cppcheck") versions
    then remove_first "cppcheck" versions else versions in
  let len_in := length versions in
  versions <- sort_commit_hashes versions ;;
  when (negb (Nat.eqb (length versions) len_in))
       (print "error: unexpected amount of versions after commit hash sorting" ;;
        sys_exit 1) ;;
  ret (true, versions).

Definition order_versions (versions : list string) : M (bool * list string) :=
  try_except (order_as_versions versions) (order_as_hashes versions).

(** *** The loop body, lines 88 to 191 *)

(** Lines 91 to 98. *)
Definition get_version (use_hashes : bool) (exe entry : string) : M string :=
  if negb use_hashes then ret entry
  else
    let version_cmd := exe ++ " " ++ "--version" in
    emit (Popen (Py.split version_cmd) None) ;;
    emit ReadStdout ;;
    let version := Py.strip (cppcheck_version w (Py.split version_cmd)) in
    ret (Py.replace " dev" "" (Py.replace "Cppcheck " "" version)).

(** [if c: cmd += flag] *)
Definition add_if (c : M bool) (flag cmd : string) : M string :=
  b <- c ;; ret (if b then cmd ++ flag else cmd).

Definition suppress_flags : string :=
  "--suppress=missingInclude --suppress=missingIncludeSystem --suppress=unmatchedSuppression --suppress=unusedFunction ".

(** Lines 100 to 118. *)
Definition build_cmd (exe version : string) : M string :=
  let cmd := exe in
  let cmd := cmd ++ " " in
  cmd <- add_if (ret (compare a)) " -q " cmd ;;
  cmd <- add_if (and_then (debug a) (version_ge version "1.45")) "--debug " cmd ;;
  cmd <- add_if (and_then (debug_warnings a) (version_ge version "1.45"))
                "--debug-warnings " cmd ;;
  cmd <- add_if (and_then (check_library a) (version_ge version "1.61"))
                "--check-library " cmd ;;
  cmd <- add_if (version_ge version "1.39") "--enable=all " cmd ;;
  cmd <- add_if (version_ge version "1.40") "--inline-suppr " cmd ;;
  cmd <- add_if (version_ge version "1.48") suppress_flags cmd ;;
  cmd <- add_if (version_ge version "1.49") "--inconclusive " cmd ;;
  ret (cmd ++ infile a).

(** Lines 121 to 130: the run, its output and its exit code. *)
Definition execute (cmd exe_path : string) : M (string * Z) :=
  emit (Popen (Py.split cmd) (Some exe_path)) ;;
  emit (CommunicateT (timeout a)) ;;
  match cppcheck_run w (Py.split cmd) exe_path (timeout a) with
  | Completed stdout stderr returncode =>
      ret (stdout ++ Py.nl ++ stderr, returncode)
  | TimedOut returncode =>
      let out := "timeout" in
      emit Kill ;;
      emit Communicate ;;
      ret (out, returncode)
  end.

(** [print(version)] or [print('{} ({})'.format(entry, version))]. *)
Definition label (use_hashes : bool) (entry version : string) : string :=
  if negb use_hashes then version else entry ++ " (" ++ version ++ ")".

Definition noise_prefix : string := "[*]: (information) Unmatched suppression:".

(** Lines 147 to 152. *)
Definition filter_noise (out : string) : string :=
  let lines := Py.splitlines out in
  fold_left (fun out line =>
               if Py.startswith line noise_prefix then out
               else out ++ (line ++ Py.nl))
            lines "".

(** The condition of line 146. *)
Definition filter_guard (use_hashes : bool) (version : string) : M bool :=
  and_then (negb use_hashes)
           (or_else (version_ge version "1.48") (version_le version "1.49")).

(** Lines 146 to 154. *)
Definition normalize (use_hashes : bool) (version out : string) : M string :=
  g <- filter_guard use_hashes version ;;
  let out := if g then filter_noise out else out in
  ret (Py.strip out).

(** [last_ec], [last_out] *)
Definition state : Type := (option Z * option string)%type.

Definition opt_Z_eqb (x y : option Z) : bool :=
  match x, y with
  | Some p, Some q => (p =? q)%Z
  | None, None => true
  | _, _ => false
  end.

Definition opt_string_eqb (x y : option string) : bool :=
  match x, y with
  | Some p, Some q => String.eqb p q
  | None, None => true
  | _, _ => false
  end.

(** Lines 156 to 191. *)
Definition report (use_hashes : bool) (entry version : string)
           (ec : Z) (out : string) (st : state) : M state :=
  let '(last_ec, last_out) := st in
  match last_ec with
  | None =>
      print (label use_hashes entry version) ;;
      ret (Some ec, Some out)
  | Some _ =>
      let do_print := false in
      do_print <-
        (if negb (opt_Z_eqb last_ec (Some ec)) then
           when (verbose a) (print (version ++ ": exitcode changed")) ;;
           ret true
         else ret do_print) ;;
      do_print <-
        (if negb (opt_string_eqb last_out (Some out)) then
           when (verbose a) (print (version ++ ": output changed")) ;;
           ret true
         else ret do_print) ;;
      when do_print
           (print (Py.str_opt_int last_ec) ;; print (Py.str_opt last_out)) ;;
      when (negb (compact a) || do_print)
           (print (label use_hashes entry version)) ;;
      ret (Some ec, Some out)
  end.

(** Lines 88 to 130: one run; its version string, output and exit code. *)
Definition run_entry (use_hashes : bool) (entry : string)
  : M (string * string * Z) :=
  let exe_path := Py.path_join (dir a) entry in
  let exe := Py.path_join exe_path "cppcheck" in
  version <- get_version use_hashes exe entry ;;
  cmd <- build_cmd exe version ;;
  when (verbose a) (print ("running '" ++ cmd ++ "'")) ;;
  '(out, ec) <- execute cmd exe_path ;;
  ret (version, out, ec).

(** Lines 88 to 191. *)
Definition body (use_hashes : bool) (st : state) (entry : string) : M state :=
  '(version, out, ec) <- run_entry use_hashes entry ;;
  if negb (compare a) then
    print (label use_hashes entry version) ;;
    print (Py.str_int ec) ;;
    print out ;;
    ret st
  else
    out <- normalize use_hashes version out ;;
    report use_hashes entry version ec out st.

(** Lines 84 to 195: the loop and the trailing print of the last result. *)
Definition analyze (use_hashes : bool) (versions : list string) : M unit :=
  st <- for_each (body use_hashes) versions (None, None) ;;
  when (compare a)
       (print (Py.str_opt_int (fst st)) ;; print (Py.str_opt (snd st))).

(** The script. *)
Definition main : M unit :=
  when (compact a)
       (when (negb (compare a))
             (print "error: --compact requires --compare" ;; sys_exit 1)) ;;
  let versions := list_versions in
  when (Nat.eqb (length versions) 0)
       (print ("error: no versions found in '" ++ dir a ++ "'") ;; sys_exit 1) ;;
  when (verbose a)
       (print ("found " ++ Py.str_int (Z.of_nat (length versions))
               ++ " versions in '" ++ dir a ++ "'")) ;;
  '(use_hashes, versions) <- order_versions versions ;;
  when (verbose a) (print ("analyzing '" ++ infile a ++ "'")) ;;
  analyze use_hashes versions ;;
  when (verbose a) (print "done").

(** [Version(version) >= Version(lit)] as a truth value, for a [version]
    and a literal that both parse. *)
Definition meets (version lit : string) : bool :=
  match Version version, Version lit with
  | Some v, Some l => ver_le l v
  | _, _ => false
  end.

(** [Version(x) <= Version(y)] on directory names. *)
Definition name_le (x y : string) : Prop := meets y x = true.

(** The names with the same version as [x]. *)
Definition same_version (x y : string) : bool := meets x y && meets y x.

(** What compare mode retains of one run: the version string and label of
    the entry, the exit code, the filtered and stripped output. *)
Record observed : Type := {
  o_version : string;
  o_label : string;
  o_ec : Z;
  o_out : string
}.

(** The version string of an entry: its name, or what its binary reports,
    sanitized (lines 91 to 98). *)
Definition entry_version (use_hashes : bool) (entry : string) : string :=
  if negb use_hashes then entry
  else
    let exe := Py.path_join (Py.path_join (dir a) entry) "cppcheck" in
    Py.replace " dev" ""
      (Py.replace "Cppcheck " ""
         (Py.strip (cppcheck_version w (Py.split (exe ++ " " ++ "--version"))))).

Definition observe (use_hashes : bool) (entry : string) : M observed :=
  '(version, out, ec) <- run_entry use_hashes entry ;;
  out <- normalize use_hashes version out ;;
  ret {| o_version := version; o_label := label use_hashes entry version;
         o_ec := ec; o_out := out |}.

(** Exit code or output differ from the retained ones. *)
Definition changed (last_ec : Z) (last_out : option string) (o : observed) : bool :=
  negb (last_ec =? o_ec o)%Z || negb (opt_string_eqb last_out (Some (o_out o))).

(** What [--verbose] says about a change. *)
Definition change_notes (last_ec : Z) (last_out : option string) (o : observed)
  : list event :=
  ((if verbose a && negb (last_ec =? o_ec o)%Z
    then [Print (o_version o ++ ": exitcode changed")] else [])
   ++ (if verbose a && negb (opt_string_eqb last_out (Some (o_out o)))
       then [Print (o_version o ++ ": output changed")] else []))%list.

(** The report of compact compare mode, as the specification words it:
    the label of the first version; for a later version the retained exit
    code and output and then its label, only if something changed; at the
    end the retained exit code and output.  [runs] pairs the events of
    each run with what was observed. *)
Fixpoint compact_rest (prev : observed) (runs : list (list event * observed))
  : list event :=
  match runs with
  | [] => [Print (Py.str_int (o_ec prev)); Print (o_out prev)]
  | (t, o) :: runs' =>
      (t ++ change_notes (o_ec prev) (Some (o_out prev)) o
         ++ (if changed (o_ec prev) (Some (o_out prev)) o
             then [Print (Py.str_int (o_ec prev)); Print (o_out prev);
                   Print (o_label o)]
             else [])
         ++ compact_rest o runs')%list
  end.

Definition compact_report (runs : list (list event * observed)) : list event :=
  match runs with
  | [] => [Print "None"; Print "None"]
  | (t, o) :: runs' => (t ++ [Print (o_label o)] ++ compact_rest o runs')%list
  end.

(** *** The fatal cases of the script *)

(** [--compact] without [--compare], lines 34 to 37. *)
Definition bad_flags : bool := compact a && negb (compare a).

(** No sub-directory, lines 52 to 54. *)
Definition no_versions : bool := Nat.eqb (length list_versions) 0.

(** Some directory name is no version: the [try] of lines 59 to 62 fails
    and the names are taken as commit hashes. *)
Definition commit_mode : bool :=
  existsb (fun s => match Version s with Some _ => false | None => true end)
          list_versions.

(** No repository argument, lines 66 to 68. *)
Definition no_repo : bool := negb (truthy (repo a)).

(** The names handed to git, lines 73 to 76, and git's answer. *)
Definition submitted : list string :=
  if existsb (String.eqb "cppcheck") list_versions
  then remove_first "cppcheck" list_versions else list_versions.

Definition git_answer : Z * string * string :=
  git_rev_list w (Py.split (git_cmd submitted)) (repo a).

(** git ends with a status other than 0, lines 26 to 29. *)
Definition git_failed : bool := negb (fst (fst git_answer) =? 0)%Z.

(** git lists another number of commits than it was given, lines 77 to 79. *)
Definition count_mismatch : bool :=
  negb (Nat.eqb (length (Py.splitlines (snd (fst git_answer))))
                (length submitted)).

(** The four cases of the specification. *)
Definition four_fatal_cases : bool :=
  bad_flags || no_versions || commit_mode && (no_repo || count_mismatch).

(** The cases in which the script calls [sys.exit(1)]. *)
Definition fatal_cases : bool :=
  bad_flags || no_versions
  || commit_mode && (no_repo || git_failed || count_mismatch).

(** The last lines printed before [sys.exit(1)]. *)
Definition fatal_lines : list string :=
  if bad_flags then ["error: --compact requires --compare"]
  else if no_versions then ["error: no versions found in '" ++ dir a ++ "'"]
  else if no_repo
       then ["error: git repository argument required for commit hash sorting"]
  else if git_failed
       then ["error: sorting commit hashes failed"; snd git_answer]
  else ["error: unexpected amount of versions after commit hash sorting"].

(** A pair of [keys_of] carries the version of its name. *)
Definition keyed (p : Ver * string) : Prop := Version (snd p) = Some (fst p).

Definition key_le (p q : Ver * string) : Prop := ver_le (fst p) (fst q) = true.

(** The events of the [except] branch before git is asked, and up to its
    answer. *)
Definition hash_preamble : list event :=
  if verbose a
  then [Print ("'" ++ hd "" list_versions
               ++ "' not a version - assuming commit hashes")]
  else [].

Definition git_preamble : list event :=
  (hash_preamble
   ++ (if verbose a
       then [Print ("using git repository '" ++ Py.str_opt (repo a)
                    ++ "' to sort commit hashes")]
       else [])
   ++ [Popen (Py.split (git_cmd submitted)) (repo a); Communicate])%list.

(** [m] does not end in [sys.exit]. *)
Definition no_exit {A} (m : M A) : Prop := forall c, snd m <> SysExit c.

(** *** Vocabulary of the further properties *)

(** [m] performs no event. *)
Definition silent {A} (m : M A) : Prop := fst m = [].

(** The events of one run of an entry with command [cmd]: in commit mode
    the version query; in verbose mode the line about the command; the
    process, the wait and, after a timeout, the kill and the drain. *)
Definition run_events (use_hashes : bool) (entry cmd : string) : list event :=
  let exe_path := Py.path_join (dir a) entry in
  let exe := Py.path_join exe_path "cppcheck" in
  ((if use_hashes
    then [Popen (Py.split (exe ++ " " ++ "--version")) None; ReadStdout]
    else [])
   ++ (if verbose a then [Print ("running '" ++ cmd ++ "'")] else [])
   ++ [Popen (Py.split cmd) (Some exe_path); CommunicateT (timeout a)]
   ++ match cppcheck_run w (Py.split cmd) exe_path (timeout a) with
      | Completed _ _ _ => []
      | TimedOut _ => [Kill; Communicate]
      end)%list.

(** The output and exit code that lines 122 to 130 take from a run:
    standard output, a newline and standard error, or [timeout]. *)
Definition run_result (p : proc_outcome) : string * Z :=
  match p with
  | Completed stdout stderr returncode => (stdout ++ Py.nl ++ stderr, returncode)
  | TimedOut returncode => ("timeout", returncode)
  end.

(** The report without [--compare]: after the events of each run, the
    label, the exit code and the output. *)
Fixpoint dump_report (use_hashes : bool) (entries : list string)
         (runs : list (list event * (string * string * Z))) : list event :=
  match entries, runs with
  | entry :: entries', (t, (version, out, ec)) :: runs' =>
      (t ++ [Print (label use_hashes entry version); Print (Py.str_int ec);
             Print out]
         ++ dump_report use_hashes entries' runs')%list
  | _, _ => []
  end.

(** The report of compare mode, compact or not: as [compact_rest], with
    the label of an unchanged version kept unless [--compact] is given. *)
Fixpoint compare_rest (prev : observed) (runs : list (list event * observed))
  : list event :=
  match runs with
  | [] => [Print (Py.str_int (o_ec prev)); Print (o_out prev)]
  | (t, o) :: runs' =>
      (t ++ change_notes (o_ec prev) (Some (o_out prev)) o
         ++ (if changed (o_ec prev) (Some (o_out prev)) o
             then [Print (Py.str_int (o_ec prev)); Print (o_out prev)]
             else [])
         ++ (if negb (compact a) || changed (o_ec prev) (Some (o_out prev)) o
             then [Print (o_label o)] else [])
         ++ compare_rest o runs')%list
  end.

Definition compare_report (runs : list (list event * observed)) : list event :=
  match runs with
  | [] => [Print "None"; Print "None"]
  | (t, o) :: runs' => (t ++ [Print (o_label o)] ++ compare_rest o runs')%list
  end.

(** The analysis runs among some events: one [communicate(timeout=...)]
    each. *)
Definition is_run (e : event) : bool :=
  match e with CommunicateT _ => true | _ => false end.

Definition count_runs (t : list event) : nat := length (filter is_run t).

(** The events other than printing. *)
Definition is_print (e : event) : bool :=
  match e with Print _ => true | _ => false end.

Definition procs_of (t : list event) : list event :=
  filter (fun e => negb (is_print e)) t.

(** Two computations that differ at most in what they print. *)
Definition same_runs {A} (m1 m2 : M A) : Prop :=
  procs_of (fst m1) = procs_of (fst m2) /\ snd m1 = snd m2.

(** Some name is no version. *)
Definition some_unparsable (versions : list string) : bool :=
  existsb (fun s => match Version s with Some _ => false | None => true end)
          versions.

(** A non-empty string without white space: one argument of a command. *)
Fixpoint no_space (s : string) : bool :=
  match s with
  | EmptyString => true
  | String c r => negb (Py.isspace c) && no_space r
  end.

Definition word (s : string) : bool := negb (Py.is_empty s) && no_space s.

(** A string without the character [c]. *)
Fixpoint lacks (c : ascii) (s : string) : bool :=
  match s with
  | EmptyString => true
  | String d r => negb (Ascii.eqb d c) && lacks c r
  end.

End Program.

(** The same arguments with other [--verbose] and [--compact]. *)
Definition with_flags (v c : bool) (a : Args) : Args :=
  {| dir := dir a; infile := infile a; repo := repo a; compare := compare a;
     verbose := v; debug := debug a; debug_warnings := debug_warnings a;
     check_library := check_library a; timeout := timeout a; compact := c |}.


(** ** A version library to run the script on

    [packaging.version.Version] is not part of the repository.  This
    instance covers the versions that are a release segment only,
    [N(.N)*]. *)

Module Dotted.

Definition digit (c : ascii) : option N :=
  let n := N_of_ascii c in
  if ((48 <=? n) && (n <=? 57))%N then Some (n - 48)%N else None.

(** [cur] is the component being read, [acc] the components read so far,
    last one first. *)
Fixpoint parse_go (cur : option N) (acc : list N) (s : string)
  : option (list N) :=
  match s with
  | EmptyString =>
      match cur with Some n => Some (rev (n :: acc)) | None => None end
  | String c r =>
      if Ascii.eqb c "." then
        match cur with Some n => parse_go None (n :: acc) r | None => None end
      else
        match digit c with
        | Some d =>
            parse_go (Some (10 * match cur with Some n => n | None => 0 end + d)%N)
                     acc r
        | None => None
        end
  end.

Fixpoint drop_trailing_zeros (l : list N) : list N :=
  match l with
  | [] => []
  | x :: r =>
      match drop_trailing_zeros r with
      | [] => if (x =? 0)%N then [] else [x]
      | r' => x :: r'
      end
  end.

(** Modelled from the spec: the order of versions, "parsed version
    precedence" with 1.9 before 1.10; the components compare numerically,
    from the left. *)
Fixpoint lex_le (x y : list N) : bool :=
  match x, y with
  | [], _ => true
  | _ :: _, [] => false
  | p :: x', q :: y' => (p <? q)%N || ((p =? q)%N && lex_le x' y')
  end.

(** Modelled from the spec: the parser of version strings, limited to
    dotted numbers; trailing zero components do not count, and any other
    string is no version. *)
Definition parse (s : string) : option (list N) :=
  option_map drop_trailing_zeros (parse_go None [] s).

#[export] Instance lib : VersionLib :=
  {| Ver := list N; Version := parse; ver_le := lex_le |}.

End Dotted.

(** ** Two folders of builds to run the script on *)

Module Demo.

Definition warning : string := "[x.c:1]: (style) Variable 'x' is not used".

Definition suppression_note : string :=
  "[*]: (information) Unmatched suppression: unusedFunction".

(** Releases 1.38 and 1.39 next to a plain file; the binaries report one
    warning once [--enable=all] is passed. *)
Definition releases : World :=
  {| listdir := fun _ => ["1.39"; "notes.txt"; "1.38"];
     isdir := fun p => negb (String.eqb p "builds/notes.txt");
     git_rev_list := fun _ _ => (0%Z, "", "");
     cppcheck_version := fun _ => "";
     cppcheck_run := fun argv _ _ =>
       if existsb (String.eqb "--enable=all") argv
       then Completed "" (warning ++ Py.nl) 0
       else Completed "" "" 0 |}.

(** Two commits and the checkout itself; git knows both commits, the
    binaries report their version as a development build, and the younger
    one adds a note about an unmatched suppression. *)
Definition commits : World :=
  {| listdir := fun _ => ["b2c3d4e"; "cppcheck"; "a1b2c3d"];
     isdir := fun _ => true;
     git_rev_list := fun argv _ =>
       if existsb (String.eqb "b2c3d4e") argv
       then (0%Z, "a1b2c3d" ++ Py.nl ++ "b2c3d4e" ++ Py.nl, "")
       else (128%Z, "", "fatal: bad revision");
     cppcheck_version := fun _ => "Cppcheck 2.13 dev" ++ Py.nl;
     cppcheck_run := fun _ cwd _ =>
       if String.eqb cwd "builds/b2c3d4e"
       then Completed "" (suppression_note ++ Py.nl) 0
       else Completed "" "" 0 |}.

(** The same folder when git fails although it lists both commits. *)
Definition commits_git_fails : World :=
  {| listdir := listdir commits;
     isdir := isdir commits;
     git_rev_list := fun _ _ =>
       (128%Z, "a1b2c3d" ++ Py.nl ++ "b2c3d4e" ++ Py.nl, "fatal: bad object");
     cppcheck_version := cppcheck_version commits;
     cppcheck_run := cppcheck_run commits |}.

(** A build that never finishes in time. *)
Definition hangs : World :=
  {| listdir := fun _ => ["1.50"; "1.60"];
     isdir := fun _ => true;
     git_rev_list := fun _ _ => (0%Z, "", "");
     cppcheck_version := fun _ => "";
     cppcheck_run := fun _ cwd _ =>
       if String.eqb cwd "builds/1.50" then TimedOut (-9)
       else Completed "" "" 0 |}.

Definition options (repo : option string)
           (compare compact verbose passed_through : bool) : Args :=
  {| dir := "builds"; infile := "x.c"; repo := repo; compare := compare;
     verbose := verbose; debug := passed_through;
     debug_warnings := passed_through; check_library := passed_through;
     timeout := 2; compact := compact |}.

Definition plain : Args := parser_defaults "builds" "x.c".

Definition comparing : Args := options None true false false false.

Definition compact_comparing : Args := options None true true false false.

Definition debugging : Args := options None false false false true.

Definition comparing_repo (compact verbose : bool) : Args :=
  options (Some "builds/cppcheck") true compact verbose false.

End Demo.

(** A folder that holds nothing but the checkout. *)
Module DemoMore.

Definition only_checkout : World :=
  {| listdir := fun _ => ["cppcheck"];
     isdir := fun _ => true;
     git_rev_list := fun _ _ => (0%Z, "", "");
     cppcheck_version := fun _ => "";
     cppcheck_run := fun _ _ _ => Completed "" "" 0 |}.

(** One commit whose binary answers the version query with a word that
    is no version. *)
Definition unknown_version : World :=
  {| listdir := fun _ => ["a1b2c3d"];
     isdir := fun _ => true;
     git_rev_list := fun _ _ => (0%Z, "a1b2c3d" ++ Py.nl, "");
     cppcheck_version := fun _ => "unknown" ++ Py.nl;
     cppcheck_run := fun _ _ _ => Completed "" "" 0 |}.

End DemoMore.

(** ** Vocabulary of the statements *)

(** The lines, each followed by one newline. *)
Definition terminated_lines (lines : list string) : string :=
  fold_right (fun line rest => line ++ Py.nl ++ rest) "" lines.


(** [closed s]: whatever follows [s] starts a new token. *)
Definition closed (s : string) : Prop :=
  forall y, Py.split (s ++ y) = (Py.split s ++ Py.split y)%list.

(** [cmd += flag] for the chunks, in order, whose condition holds. *)
Definition append_chunks (cmd : string) (chunks : list (bool * string)) : string :=
  fold_left (fun (cmd : string) (c : bool * string) =>
               if fst c then cmd ++ snd c else cmd) chunks cmd.

(** The arguments that the appended chunks become in [cmd.split()]. *)
Definition chunk_tokens (chunks : list (bool * string)) : list string :=
  flat_map (fun c : bool * string => if fst c then Py.split (snd c) else [])
           chunks.

(** ** Facts about the string primitives *)

Section StringFacts.

Example split_ex : Py.split "  a/cppcheck   -q --debug x.c " = ["a/cppcheck"; "-q"; "--debug"; "x.c"].
Proof. reflexivity. Qed.

Example splitlines_ex :
  Py.splitlines ("ab" ++ Py.nl ++ Py.nl ++ "c" ++ Py.nl) = ["ab"; ""; "c"].
Proof. reflexivity. Qed.

Example strip_ex : Py.strip ("  a b " ++ Py.nl) = "a b".
Proof. reflexivity. Qed.

Example replace_ex :
  Py.replace " dev" "" (Py.replace "Cppcheck " "" "Cppcheck 2.13 dev") = "2.13".
Proof. reflexivity. Qed.

Example str_int_ex : Py.str_int (-9) = "-9" /\ Py.str_int 0 = "0" /\ Py.str_int 12 = "12".
Proof. repeat split; reflexivity. Qed.

Example path_join_ex :
  Py.path_join "builds" "1.45" = "builds/1.45" /\ Py.path_join "builds/" "1.45" = "builds/1.45".
Proof. split; reflexivity. Qed.

Lemma str_app_assoc (x y z : string) : (x ++ y) ++ z = x ++ (y ++ z).
Proof. induction x as [|c x IH]; simpl; [reflexivity | now rewrite IH]. Qed.

Lemma str_app_nil_r (x : string) : x ++ "" = x.
Proof. induction x as [|c x IH]; simpl; [reflexivity | now rewrite IH]. Qed.

Lemma split_go_nil (tok : string) : Py.split_go tok "" = Py.flush tok.
Proof. reflexivity. Qed.

(** A space inside a string separates what [split] makes of both sides. *)
Lemma split_go_app_space (x y tok : string) (c : ascii) :
  Py.isspace c = true ->
  Py.split_go tok (x ++ String c y) = (Py.split_go tok x ++ Py.split_go "" y)%list.
Proof.
  intros Hc. revert tok.
  induction x as [|d x IH]; intros tok; simpl.
  - now rewrite Hc.
  - destruct (Py.isspace d).
    + now rewrite IH, app_assoc.
    + apply IH.
Qed.

Lemma closed_empty : closed "".
Proof. intros y. reflexivity. Qed.

Lemma closed_space (x : string) : closed (x ++ " ").
Proof.
  intros y. unfold Py.split.
  rewrite str_app_assoc. simpl.
  rewrite !split_go_app_space by reflexivity.
  simpl. now rewrite app_nil_r.
Qed.

Lemma split_space_r (x : string) : Py.split (x ++ " ") = Py.split x.
Proof.
  unfold Py.split. rewrite split_go_app_space by reflexivity.
  simpl. apply app_nil_r.
Qed.

Lemma closed_app (x y : string) : closed x -> closed y -> closed (x ++ y).
Proof.
  intros Hx Hy z.
  now rewrite str_app_assoc, Hx, Hy, (Hx y), app_assoc.
Qed.

Lemma closed_if (b : bool) (x flag : string) :
  closed x -> closed flag -> closed (if b then x ++ flag else x).
Proof. destruct b; auto using closed_app. Qed.

Lemma split_if (b : bool) (x flag : string) :
  closed x ->
  Py.split (if b then x ++ flag else x)
  = (Py.split x ++ (if b then Py.split flag else []))%list.
Proof.
  intros Hx. destruct b; [apply Hx | now rewrite app_nil_r].
Qed.

End StringFacts.

(** ** Facts about computations *)

Section MonadFacts.

Lemma bind_ret_l {A B} (x : A) (f : A -> M B) : bind (ret x) f = f x.
Proof. unfold bind, ret. now destruct (f x). Qed.

Lemma bind_ok {A B} (t : list event) (x : A) (f : A -> M B) :
  bind (t, Ok x) f = ((t ++ fst (f x))%list, snd (f x)).
Proof. unfold bind. now destruct (f x). Qed.

Lemma bind_ret_r {A} (m : M A) : bind m ret = m.
Proof.
  destruct m as [t [x| |]]; simpl; trivial. now rewrite app_nil_r.
Qed.

Lemma bind_assoc {A B C} (m : M A) (f : A -> M B) (g : B -> M C) :
  bind (bind m f) g = bind m (fun x => bind (f x) g).
Proof.
  destruct m as [t [x| |]]; simpl; trivial.
  destruct (f x) as [t' [y| |]]; simpl; trivial.
  destruct (g y) as [t'' r]. now rewrite app_assoc.
Qed.

End MonadFacts.

(** ** Facts about version comparisons *)

Section VersionFacts.

Context {L : VersionLib} {HL : VersionLaws L}.

Lemma literal_parses (lit : string) :
  In lit threshold_literals -> exists l, Version lit = Some l.
Proof.
  intros Hin. destruct (Version lit) eqn:E; [eauto|].
  now apply literals_parse in Hin.
Qed.

Lemma mkVersion_ok (s : string) (v : Ver) :
  Version s = Some v -> mkVersion s = ret v.
Proof. unfold mkVersion. now intros ->. Qed.

Lemma version_ge_ok (s lit : string) (v : Ver) :
  Version s = Some v -> In lit threshold_literals ->
  version_ge s lit = ret (meets s lit).
Proof.
  intros Hs Hlit. destruct (literal_parses lit Hlit) as [l Hl].
  unfold version_ge, meets.
  rewrite (mkVersion_ok _ _ Hs), (mkVersion_ok _ _ Hl), Hs, Hl.
  now rewrite !bind_ret_l.
Qed.

Lemma version_le_ok (s lit : string) (v : Ver) :
  Version s = Some v -> In lit threshold_literals ->
  version_le s lit = ret (meets lit s).
Proof.
  intros Hs Hlit. destruct (literal_parses lit Hlit) as [l Hl].
  unfold version_le, meets.
  rewrite (mkVersion_ok _ _ Hs), (mkVersion_ok _ _ Hl), Hs, Hl.
  now rewrite !bind_ret_l.
Qed.

Lemma add_if_ret (b : bool) (flag cmd : string) :
  add_if (ret b) flag cmd = ret (if b then cmd ++ flag else cmd).
Proof. unfold add_if. now rewrite bind_ret_l. Qed.

Lemma and_then_ret (x b : bool) : and_then x (ret b) = ret (x && b).
Proof. now destruct x. Qed.

(** The command of [build_cmd] is the executable, a space, the chunks
    whose condition holds, and the input file. *)
Lemma build_cmd_chunks (a : Args) (exe s : string) (v : Ver) :
  Version s = Some v ->
  build_cmd a exe s
  = ret (append_chunks (exe ++ " ")
           [(compare a, " -q ");
            (debug a && meets s "1.45", "--debug ");
            (debug_warnings a && meets s "1.45", "--debug-warnings ");
            (check_library a && meets s "1.61", "--check-library ");
            (meets s "1.39", "--enable=all ");
            (meets s "1.40", "--inline-suppr ");
            (meets s "1.48", suppress_flags);
            (meets s "1.49", "--inconclusive ")]
         ++ infile a).
Proof.
  intros Hs. unfold build_cmd.
  rewrite !(version_ge_ok s _ v Hs) by (simpl; tauto).
  rewrite !and_then_ret.
  repeat (rewrite add_if_ret, bind_ret_l).
  reflexivity.
Qed.

Lemma append_chunks_split (chunks : list (bool * string)) (x : string) :
  closed x -> Forall (fun c => closed (snd c)) chunks ->
  closed (append_chunks x chunks)
  /\ Py.split (append_chunks x chunks)
     = (Py.split x ++ chunk_tokens chunks)%list.
Proof.
  intros Hx Hc. revert x Hx.
  induction Hc as [|[b f] chunks Hf _ IH]; intros x Hx; simpl.
  - split; [assumption | now rewrite app_nil_r].
  - simpl in Hf.
    destruct (IH (if b then x ++ f else x) (closed_if b x f Hx Hf)) as [Hcl Hsp].
    split; [assumption|].
    now rewrite Hsp, split_if, app_assoc.
Qed.

Lemma in_if_list (b : bool) (l : list string) (f : string) :
  In f (if b then l else []) <-> b = true /\ In f l.
Proof. destruct b; simpl; intuition discriminate. Qed.

End VersionFacts.

(** ** The command builder *)

Section CommandBuilder.

Context {L : VersionLib} {HL : VersionLaws L}.

(** C1.  For a version string that parses, [build_cmd] returns a command
    whose arguments are those of the executable path, then the gated flags,
    then those of the input file, and a flag is among the gated ones exactly
    when its condition holds: [-q] when comparing, [--debug] and
    [--debug-warnings] when requested and the version is at least 1.45,
    [--check-library] when requested and at least 1.61, [--enable=all] from
    1.39, [--inline-suppr] from 1.40, the four [--suppress=] options from
    1.48, [--inconclusive] from 1.49.  Below every threshold no flag but
    [-q] (when comparing) is there. *)
Theorem gated_flags_follow_thresholds (a : Args) (exe s : string) (v : Ver) :
  Version s = Some v ->
  exists cmd gated,
    build_cmd a exe s = ([], Ok cmd)
    /\ Py.split cmd = (Py.split exe ++ gated ++ Py.split (infile a))%list
    /\ (In "-q" gated <-> compare a = true)
    /\ (In "--debug" gated <-> debug a = true /\ meets s "1.45" = true)
    /\ (In "--debug-warnings" gated
        <-> debug_warnings a = true /\ meets s "1.45" = true)
    /\ (In "--check-library" gated
        <-> check_library a = true /\ meets s "1.61" = true)
    /\ (In "--enable=all" gated <-> meets s "1.39" = true)
    /\ (In "--inline-suppr" gated <-> meets s "1.40" = true)
    /\ (forall f,
          In f ["--suppress=missingInclude"; "--suppress=missingIncludeSystem";
                "--suppress=unmatchedSuppression"; "--suppress=unusedFunction"] ->
          (In f gated <-> meets s "1.48" = true))
    /\ (In "--inconclusive" gated <-> meets s "1.49" = true)
    /\ ((forall lit, In lit threshold_literals -> meets s lit = false) ->
        gated = if compare a then ["-q"] else []).
Proof.
  intros Hs.
  rewrite (build_cmd_chunks a exe s v Hs).
  match goal with |- context [append_chunks _ ?c] => set (chunks := c) end.
  assert (Hcl : Forall (fun c => closed (snd c)) chunks).
  { unfold chunks. repeat constructor; simpl;
      match goal with |- closed ?f => apply (closed_space (String.substring 0 (String.length f - 1) f)) end. }
  destruct (append_chunks_split chunks (exe ++ " ") (closed_space exe) Hcl)
    as [Hclosed Hsplit].
  exists (append_chunks (exe ++ " ") chunks ++ infile a), (chunk_tokens chunks).
  split; [reflexivity|].
  split.
  { now rewrite Hclosed, Hsplit, split_space_r, app_assoc. }
  unfold chunks, chunk_tokens. cbn [flat_map fst snd].
  change (Py.split " -q ") with ["-q"].
  change (Py.split "--debug ") with ["--debug"].
  change (Py.split "--debug-warnings ") with ["--debug-warnings"].
  change (Py.split "--check-library ") with ["--check-library"].
  change (Py.split "--enable=all ") with ["--enable=all"].
  change (Py.split "--inline-suppr ") with ["--inline-suppr"].
  change (Py.split "--inconclusive ") with ["--inconclusive"].
  change (Py.split suppress_flags)
    with ["--suppress=missingInclude"; "--suppress=missingIncludeSystem";
          "--suppress=unmatchedSuppression"; "--suppress=unusedFunction"].
  repeat (split;
          [rewrite !in_app_iff, !in_if_list, ?andb_true_iff; simpl;
           intuition discriminate|]).
  split.
  { intros f Hf. rewrite !in_app_iff, !in_if_list. simpl in Hf |- *.
    intuition (subst; try discriminate; auto 10). }
  split.
  { rewrite !in_app_iff, !in_if_list, ?andb_true_iff; simpl.
    intuition discriminate. }
  intros Hlow.
  rewrite !Hlow by (simpl; tauto). rewrite !andb_false_r. simpl.
  now rewrite app_nil_r.
Qed.

End CommandBuilder.

(** ** The noise filter *)

Section NoiseFilter.

Context {L : VersionLib}.

Lemma filter_noise_acc (lines : list string) (acc : string) :
  fold_left (fun out line =>
               if Py.startswith line noise_prefix then out
               else out ++ (line ++ Py.nl)) lines acc
  = acc ++ terminated_lines
             (filter (fun line => negb (Py.startswith line noise_prefix)) lines).
Proof.
  revert acc. induction lines as [|line lines IH]; intros acc; simpl.
  - now rewrite str_app_nil_r.
  - rewrite IH. destruct (Py.startswith line noise_prefix); simpl.
    + reflexivity.
    + now rewrite !str_app_assoc.
Qed.

Lemma prefix_app (p x : string) : String.prefix p (p ++ x) = true.
Proof.
  induction p as [|c p IH]; simpl.
  - now destruct x.
  - destruct (ascii_dec c c); [assumption | congruence].
Qed.

(** C10.  The filter keeps, in their order and each followed by one
    newline, exactly the lines that do not start with the prefix; a line
    that starts with it is dropped whatever follows the prefix, so also for
    a suppression name that is none of the four of the comment. *)
Theorem filter_noise_drops_prefixed_lines (out : string) :
  let kept := filter (fun line => negb (Py.startswith line noise_prefix))
                     (Py.splitlines out) in
  filter_noise out = terminated_lines kept
  /\ (forall rest, ~ In (noise_prefix ++ rest) kept)
  /\ (forall line, In line (Py.splitlines out) ->
        Py.startswith line noise_prefix = false -> In line kept)
  /\ filter_noise ("[*]: (information) Unmatched suppression: nullPointer"
                   ++ Py.nl ++ "[x.c:3]: (error) Null pointer dereference"
                   ++ Py.nl ++ Py.nl ++ "done")
     = "[x.c:3]: (error) Null pointer dereference" ++ Py.nl ++ Py.nl
       ++ "done" ++ Py.nl.
Proof.
  intros kept. repeat split.
  - unfold filter_noise. now rewrite filter_noise_acc.
  - intros rest Hin. apply filter_In in Hin as [_ Hkeep].
    unfold Py.startswith in Hkeep. now rewrite prefix_app in Hkeep.
  - intros line Hin Hno. apply filter_In. now rewrite Hno.
Qed.

(** C9.  With commit hashes the guard of line 146 is false without any
    version being looked at, and the output is only stripped; so the two
    commits of [Demo.commits], whose outputs differ by one note about an
    unmatched suppression, are reported as a change. *)
Theorem hashes_skip_noise_filter (version out : string) :
  filter_guard true version = ret false
  /\ normalize true version out = ret (Py.strip out)
  /\ stdout_of (fst (main (L := Dotted.lib) (Demo.comparing_repo false false)
                          Demo.commits))
     = ["a1b2c3d (2.13)"; "0"; ""; "b2c3d4e (2.13)"; "0"; Demo.suppression_note].
Proof.
  repeat split.
Qed.

End NoiseFilter.

Section NoiseGuard.

Context {L : VersionLib} {HL : VersionLaws L}.

Lemma meets_148_or_149 (s : string) (v : Ver) :
  Version s = Some v -> meets s "1.48" = true \/ meets "1.49" s = true.
Proof.
  intros Hs.
  destruct (literal_parses "1.48") as [l48 H48]; [simpl; tauto|].
  destruct (literal_parses "1.49") as [l49 H49]; [simpl; tauto|].
  unfold meets. rewrite Hs, H48, H49.
  destruct (ver_le_total l48 v) as [H|H]; [now left | right].
  eapply ver_le_trans; [exact H|]. now apply literal_148_149.
Qed.

Lemma guard_disjunction_true (s : string) (v : Ver) :
  Version s = Some v ->
  or_else (version_ge s "1.48") (version_le s "1.49") = ret true.
Proof.
  intros Hs. unfold or_else.
  rewrite (version_ge_ok s "1.48" v Hs), (version_le_ok s "1.49" v Hs)
    by (simpl; tauto).
  rewrite bind_ret_l.
  destruct (meets s "1.48") eqn:E; [reflexivity|].
  destruct (meets_148_or_149 s v Hs) as [H|H]; [congruence | now rewrite H].
Qed.

Lemma normalize_parsed (uh : bool) (s out : string) (v : Ver) :
  Version s = Some v ->
  normalize uh s out = ret (Py.strip (if uh then out else filter_noise out)).
Proof.
  intros Hs. unfold normalize, filter_guard.
  destruct uh; simpl negb; unfold and_then.
  - now rewrite bind_ret_l.
  - now rewrite (guard_disjunction_true s v Hs), bind_ret_l.
Qed.

(** C3.  For a version string that parses, the test of line 146,
    [Version(version) >= Version('1.48') or Version(version) <= Version('1.49')],
    is true; so with version names the guard holds and the output is
    always filtered, then stripped. *)
Theorem noise_guard_always_true (s : string) (v : Ver) :
  Version s = Some v ->
  or_else (version_ge s "1.48") (version_le s "1.49") = ret true
  /\ filter_guard false s = ret true
  /\ forall out, normalize false s out = ret (Py.strip (filter_noise out)).
Proof.
  intros Hs. split; [|split].
  - now apply guard_disjunction_true with v.
  - unfold filter_guard. simpl. now apply guard_disjunction_true with v.
  - intros out. now rewrite (normalize_parsed false s out v Hs).
Qed.

End NoiseGuard.

(** ** The version enumerator: sorting by version *)

Section SortByVersion.

Context {L : VersionLib} {HL : VersionLaws L}.

Lemma keys_of_ok (l : list string) :
  (forall s, In s l -> Version s <> None) ->
  exists ks, keys_of l = ret ks /\ map snd ks = l /\ Forall keyed ks.
Proof.
  induction l as [|s l IH]; intros Hall; simpl.
  - exists []. repeat split. constructor.
  - destruct (Version s) as [k|] eqn:Hk; [|now destruct (Hall s (or_introl eq_refl))].
    destruct IH as (ks & Hks & Hmap & Hkeyed); [intros; apply Hall; now right|].
    exists ((k, s) :: ks).
    rewrite (mkVersion_ok s k Hk), Hks, !bind_ret_l.
    repeat split; [simpl; congruence | now constructor].
Qed.

Lemma insert_by_key_perm (x : Ver * string) (l : list (Ver * string)) :
  Permutation (x :: l) (insert_by_key x l).
Proof.
  induction l as [|y l IH]; simpl; [reflexivity|].
  destruct (ver_lt (fst y) (fst x)); [|reflexivity].
  rewrite perm_swap. now constructor.
Qed.

Lemma sort_keyed_perm (l : list (Ver * string)) : Permutation l (sort_keyed l).
Proof.
  induction l as [|x l IH]; simpl; [constructor|].
  rewrite <- insert_by_key_perm. now constructor.
Qed.

Lemma ver_lt_le (x y : Ver) : ver_lt x y = true -> ver_le x y = true.
Proof.
  unfold ver_lt. intros H. apply negb_true_iff in H.
  destruct (ver_le_total x y) as [H'|H']; congruence.
Qed.

Lemma insert_by_key_sorted (x : Ver * string) (l : list (Ver * string)) :
  StronglySorted key_le l -> StronglySorted key_le (insert_by_key x l).
Proof.
  induction 1 as [|y l Hs IH Hy]; simpl.
  - repeat constructor.
  - destruct (ver_lt (fst y) (fst x)) eqn:Hlt.
    + constructor; [assumption|].
      eapply Permutation_Forall; [apply insert_by_key_perm|].
      constructor; [now apply ver_lt_le | assumption].
    + assert (Hxy : key_le x y).
      { unfold ver_lt in Hlt. apply negb_false_iff in Hlt. exact Hlt. }
      constructor; [now constructor|].
      constructor; [assumption|].
      eapply Forall_impl; [|exact Hy].
      intros z Hz. unfold key_le in *. eauto using ver_le_trans.
Qed.

Lemma sort_keyed_sorted (l : list (Ver * string)) :
  StronglySorted key_le (sort_keyed l).
Proof.
  induction l as [|x l IH]; simpl; [constructor|].
  now apply insert_by_key_sorted.
Qed.

(** Insertion does not pass over a pair of the same version: the pairs of
    one version keep their order. *)
Lemma insert_by_key_stable (k : Ver) (x : Ver * string) (l : list (Ver * string)) :
  let same p := ver_le k (fst p) && ver_le (fst p) k in
  filter same (insert_by_key x l) = filter same (x :: l).
Proof.
  intros same. induction l as [|y l IH]; [reflexivity|].
  simpl insert_by_key. destruct (ver_lt (fst y) (fst x)) eqn:Hlt; [|reflexivity].
  simpl in IH |- *. rewrite IH.
  destruct (same x) eqn:Hx, (same y) eqn:Hy; try reflexivity.
  exfalso. unfold same in Hx, Hy.
  apply andb_true_iff in Hx as [_ Hxk], Hy as [Hky _].
  unfold ver_lt in Hlt. apply negb_true_iff in Hlt.
  now rewrite (ver_le_trans _ _ _ Hxk Hky) in Hlt.
Qed.

Lemma sort_keyed_stable (k : Ver) (l : list (Ver * string)) :
  let same p := ver_le k (fst p) && ver_le (fst p) k in
  filter same (sort_keyed l) = filter same l.
Proof.
  intros same. induction l as [|x l IH]; [reflexivity|].
  simpl sort_keyed. unfold same. rewrite insert_by_key_stable.
  fold same. simpl. now rewrite IH.
Qed.

Lemma filter_map_snd (f : string -> bool) (ks : list (Ver * string)) :
  filter f (map snd ks) = map snd (filter (fun p => f (snd p)) ks).
Proof.
  induction ks as [|p ks IH]; simpl; [reflexivity|].
  destruct (f (snd p)); simpl; now rewrite IH.
Qed.

Lemma same_version_keyed (x : string) (k : Ver) (ks : list (Ver * string)) :
  Version x = Some k -> Forall keyed ks ->
  filter (fun p => same_version x (snd p)) ks
  = filter (fun p => ver_le k (fst p) && ver_le (fst p) k) ks.
Proof.
  intros Hx Hks. apply filter_ext_in. intros p Hp.
  rewrite Forall_forall in Hks. specialize (Hks p Hp). unfold keyed in Hks.
  unfold same_version, meets. rewrite Hx, Hks. apply andb_comm.
Qed.

Lemma sorted_names (ks : list (Ver * string)) :
  Forall keyed ks -> StronglySorted key_le ks ->
  StronglySorted name_le (map snd ks).
Proof.
  intros Hk Hs. induction Hs as [|p ks Hs IH Hp]; simpl; [constructor|].
  inversion Hk as [|? ? Hkp Hkks]; subst.
  constructor; [auto|].
  rewrite Forall_map. rewrite Forall_forall in Hp, Hkks |- *.
  intros q Hq. unfold name_le, meets.
  rewrite (Hkks q Hq), Hkp. now apply Hp.
Qed.

Lemma order_as_versions_ok (versions : list string) :
  versions <> [] ->
  (forall s, In s versions -> Version s <> None) ->
  exists ks,
    keys_of versions = ret ks /\ map snd ks = versions /\ Forall keyed ks
    /\ order_as_versions versions = ret (false, map snd (sort_keyed ks)).
Proof.
  intros Hne Hall.
  destruct (keys_of_ok versions Hall) as (ks & Hks & Hmap & Hkeyed).
  exists ks. repeat split; trivial.
  destruct versions as [|v0 rest]; [congruence|].
  unfold order_as_versions, sort_by_version.
  destruct (Version v0) as [k0|] eqn:H0; [|now destruct (Hall v0 (or_introl eq_refl))].
  now rewrite (mkVersion_ok v0 k0 H0), Hks, !bind_ret_l.
Qed.

(** C4.  When every directory name parses as a version, the enumerator
    prints nothing, chooses version mode and returns the names in
    ascending order of their versions: a permutation of the names, each
    version at most the versions after it, names of one version in the
    order they were listed.  With numeric components, 1.9 comes before
    1.10. *)
Theorem versions_sorted_by_precedence (a : Args) (w : World)
        (versions : list string) :
  versions <> [] ->
  (forall s, In s versions -> Version s <> None) ->
  exists sorted,
    order_versions a w versions = ([], Ok (false, sorted))
    /\ Permutation versions sorted
    /\ StronglySorted name_le sorted
    /\ (forall x, In x versions ->
          filter (same_version x) sorted = filter (same_version x) versions)
    /\ order_versions (L := Dotted.lib) a w ["1.10"; "1.9"; "1.9.1"; "1.38"]
       = ([], Ok (false, ["1.9"; "1.9.1"; "1.10"; "1.38"])).
Proof.
  intros Hne Hall.
  destruct (order_as_versions_ok versions Hne Hall)
    as (ks & Hks & Hmap & Hkeyed & Hord).
  exists (map snd (sort_keyed ks)).
  assert (Hkeyed' : Forall keyed (sort_keyed ks)).
  { eapply Permutation_Forall; [apply sort_keyed_perm | assumption]. }
  split; [unfold order_versions; now rewrite Hord|].
  split; [rewrite <- Hmap at 1; apply Permutation_map, sort_keyed_perm|].
  split; [apply sorted_names; [assumption | apply sort_keyed_sorted]|].
  split; [|reflexivity].
  intros x Hx.
  destruct (Version x) as [k|] eqn:Hk; [|now destruct (Hall x Hx)].
  rewrite <- Hmap. rewrite !filter_map_snd.
  rewrite !(same_version_keyed x k) by assumption.
  now rewrite (sort_keyed_stable k ks).
Qed.

End SortByVersion.

(** ** The version enumerator: commit hashes *)

Section CommitHashes.

Context {L : VersionLib}.

Lemma keys_of_fails (l : list string) :
  (exists s, In s l /\ Version s = None) ->
  exists e, keys_of l = ([], Uncaught e).
Proof.
  induction l as [|s l IH]; intros (x & Hin & Hx); [destruct Hin|].
  simpl. unfold mkVersion. destruct (Version s) as [k|] eqn:Hk.
  - destruct Hin as [->|Hin]; [congruence|].
    destruct IH as [e He]; [eauto|].
    exists e. now rewrite bind_ret_l, He.
  - eexists. reflexivity.
Qed.

Lemma order_as_versions_fails (versions : list string) :
  (exists s, In s versions /\ Version s = None) ->
  exists e, order_as_versions versions = ([], Uncaught e).
Proof.
  intros Hbad. destruct versions as [|v0 rest]; [eexists; reflexivity|].
  unfold order_as_versions, sort_by_version, mkVersion at 1.
  destruct (Version v0) eqn:H0; [|eexists; reflexivity].
  destruct (keys_of_fails _ Hbad) as [e He].
  exists e. now rewrite bind_ret_l, He.
Qed.

Lemma order_versions_hashes (a : Args) (w : World) (versions : list string) :
  (exists s, In s versions /\ Version s = None) ->
  order_versions a w versions = order_as_hashes a w versions.
Proof.
  intros Hbad. destruct (order_as_versions_fails versions Hbad) as [e He].
  unfold order_versions. rewrite He. simpl.
  now destruct (order_as_hashes a w versions).
Qed.

Lemma existsb_eqb_In (x : string) (l : list string) :
  existsb (String.eqb x) l = true <-> In x l.
Proof.
  rewrite existsb_exists. split.
  - intros (y & Hy & Heq). apply String.eqb_eq in Heq. now subst.
  - intros Hin. exists x. now rewrite String.eqb_refl.
Qed.

Lemma filter_not_in (x : string) (l : list string) :
  ~ In x l -> filter (fun y => negb (String.eqb y x)) l = l.
Proof.
  induction l as [|y l IH]; simpl; [reflexivity|].
  intros Hn. destruct (String.eqb_spec y x) as [->|Hne]; [tauto|].
  simpl. rewrite IH; tauto.
Qed.

(** What is handed to git: the directory names without [cppcheck]. *)
Lemma submitted_without_cppcheck (versions : list string) :
  NoDup versions ->
  (if existsb (String.eqb "cppcheck") versions
   then remove_first "cppcheck" versions else versions)
  = filter (fun y => negb (String.eqb y "cppcheck")) versions.
Proof.
  intros Hnd. destruct (existsb _ versions) eqn:E.
  - clear E. induction Hnd as [|y l Hy Hl IH]; simpl; [reflexivity|].
    destruct (String.eqb_spec y "cppcheck") as [->|Hne]; simpl.
    + now rewrite filter_not_in.
    + now rewrite IH.
  - rewrite filter_not_in; [reflexivity|].
    intros Hin. apply existsb_eqb_In in Hin. congruence.
Qed.

(** C5.  When some directory name is no version and a repository is given:
    the names handed to git are the directory names other than [cppcheck],
    in their order; when git succeeds with as many lines as names, commit
    mode is chosen and the processing order is the lines of git's output
    (and nothing is printed outside verbose mode); when it succeeds with
    another number of lines, the error is printed last and the script
    exits with 1. *)
Theorem commit_hashes_ordered_by_git (a : Args) (w : World)
        (versions : list string) (stdout stderr : string) :
  (exists s, In s versions /\ Version s = None) ->
  truthy (repo a) = true ->
  let commits := if existsb (String.eqb "cppcheck") versions
                 then remove_first "cppcheck" versions else versions in
  git_rev_list w (Py.split (git_cmd commits)) (repo a) = (0%Z, stdout, stderr) ->
  (NoDup versions ->
   commits = filter (fun y => negb (String.eqb y "cppcheck")) versions
   /\ ~ In "cppcheck" commits)
  /\ In (Popen (Py.split (git_cmd commits)) (repo a))
        (fst (order_versions a w versions))
  /\ (length (Py.splitlines stdout) = length commits ->
      snd (order_versions a w versions) = Ok (true, Py.splitlines stdout)
      /\ forall line, In line (stdout_of (fst (order_versions a w versions))) ->
                      verbose a = true)
  /\ (length (Py.splitlines stdout) <> length commits ->
      snd (order_versions a w versions) = SysExit 1
      /\ exists t, fst (order_versions a w versions)
                   = (t ++ [Print "error: unexpected amount of versions after commit hash sorting"])%list).
Proof.
  intros Hbad Hrepo commits Hgit.
  split.
  { intros Hnd. unfold commits. rewrite (submitted_without_cppcheck _ Hnd).
    split; [reflexivity|].
    intros Hin. apply filter_In in Hin as [_ Hin].
    now rewrite String.eqb_refl in Hin. }
  rewrite (order_versions_hashes a w versions Hbad).
  unfold order_as_hashes, sort_commit_hashes. rewrite Hrepo.
  fold commits. cbv zeta. rewrite Hgit.
  set (argv := Py.split (git_cmd commits)). clearbody argv.
  set (lines := Py.splitlines stdout). clearbody lines.
  set (n := length commits). clearbody n. clear Hgit commits.
  destruct versions as [|found rest]; [now destruct Hbad as (s & [] & _)|].
  destruct (verbose a); simpl;
    destruct (Nat.eqb_spec (length lines) n) as [Hlen|Hlen]; simpl;
    (split; [auto 10|]); (split; intros Hl; try contradiction).
  - split; [reflexivity | trivial].
  - split; [reflexivity|].
    now exists [Print ("'" ++ found ++ "' not a version - assuming commit hashes");
           Print ("using git repository '" ++ Py.str_opt (repo a) ++ "' to sort commit hashes");
           Popen argv (repo a); Communicate].
  - split; [reflexivity | intros line; simpl; tauto].
  - split; [reflexivity|]. now exists [Popen argv (repo a); Communicate].
Qed.

End CommitHashes.

(** ** The comparator *)

Section Comparator.

Context {L : VersionLib} {HL : VersionLaws L}.

Variable a : Args.
Variable w : World.

Lemma report_first (uh : bool) (entry version out : string) (ec : Z)
      (last_out : option string) :
  report a uh entry version ec out (None, last_out)
  = ([Print (label uh entry version)], Ok (Some ec, Some out)).
Proof. reflexivity. Qed.

Lemma report_next (uh : bool) (entry version out : string) (ec pec : Z)
      (pout : option string) :
  let o := {| o_version := version; o_label := label uh entry version;
              o_ec := ec; o_out := out |} in
  report a uh entry version ec out (Some pec, pout)
  = ((change_notes a pec pout o
      ++ (if changed pec pout o
          then [Print (Py.str_int pec); Print (Py.str_opt pout)] else [])
      ++ (if negb (compact a) || changed pec pout o
          then [Print (o_label o)] else []))%list,
     Ok (Some ec, Some out)).
Proof.
  unfold report, change_notes, changed, opt_Z_eqb. simpl.
  destruct (pec =? ec)%Z, (opt_string_eqb pout (Some out)),
    (verbose a), (compact a); reflexivity.
Qed.

Lemma observe_inv (uh : bool) (entry : string) (t : list event) (o : observed) :
  observe a w uh entry = (t, Ok o) ->
  exists t1 t2 out,
    run_entry a w uh entry = (t1, Ok (o_version o, out, o_ec o))
    /\ normalize uh (o_version o) out = (t2, Ok (o_out o))
    /\ t = (t1 ++ t2)%list
    /\ o_label o = label uh entry (o_version o).
Proof.
  unfold observe.
  destruct (run_entry a w uh entry) as [t1 [[[version out] ec]| |]];
    simpl; try discriminate.
  destruct (normalize uh version out) as [t2 [out'| |]] eqn:Hn;
    simpl; try discriminate.
  intros H. injection H as <- <-. simpl.
  exists t1, t2, out. rewrite app_nil_r. auto.
Qed.

Lemma body_compare (uh : bool) (st : state) (entry : string)
      (t : list event) (o : observed) :
  compare a = true ->
  observe a w uh entry = (t, Ok o) ->
  body a w uh st entry
  = ((t ++ fst (report a uh entry (o_version o) (o_ec o) (o_out o) st))%list,
     snd (report a uh entry (o_version o) (o_ec o) (o_out o) st)).
Proof.
  intros Hc Ho.
  destruct (observe_inv uh entry t o Ho) as (t1 & t2 & out & Hrun & Hnorm & -> & _).
  unfold body. rewrite Hrun, Hc. simpl. rewrite Hnorm. simpl.
  destruct (report a uh entry (o_version o) (o_ec o) (o_out o) st) as [t3 r].
  simpl. now rewrite app_assoc.
Qed.

Lemma body_first (uh : bool) (entry : string) (last_out : option string)
      (t : list event) (o : observed) :
  compare a = true ->
  observe a w uh entry = (t, Ok o) ->
  body a w uh (None, last_out) entry
  = ((t ++ [Print (o_label o)])%list, Ok (Some (o_ec o), Some (o_out o))).
Proof.
  intros Hc Ho. rewrite (body_compare uh _ entry t o Hc Ho), report_first.
  destruct (observe_inv uh entry t o Ho) as (_ & _ & _ & _ & _ & _ & ->).
  reflexivity.
Qed.

Lemma body_next (uh : bool) (entry : string) (pec : Z) (pout : option string)
      (t : list event) (o : observed) :
  compare a = true ->
  observe a w uh entry = (t, Ok o) ->
  body a w uh (Some pec, pout) entry
  = ((t ++ change_notes a pec pout o
        ++ (if changed pec pout o
            then [Print (Py.str_int pec); Print (Py.str_opt pout)] else [])
        ++ (if negb (compact a) || changed pec pout o
            then [Print (o_label o)] else []))%list,
     Ok (Some (o_ec o), Some (o_out o))).
Proof.
  intros Hc Ho. rewrite (body_compare uh _ entry t o Hc Ho), report_next.
  destruct (observe_inv uh entry t o Ho) as (_ & _ & _ & _ & _ & _ & Hl).
  destruct o as [version lbl ec out]. simpl in *. now subst lbl.
Qed.

Lemma opt_string_eqb_eq (x y : option string) :
  opt_string_eqb x y = true <-> x = y.
Proof.
  destruct x as [p|], y as [q|]; simpl; try (split; congruence).
  rewrite String.eqb_eq. split; congruence.
Qed.

Lemma changed_false (pec : Z) (pout : option string) (o : observed) :
  changed pec pout o = false <-> pec = o_ec o /\ pout = Some (o_out o).
Proof.
  unfold changed.
  rewrite orb_false_iff, !negb_false_iff, Z.eqb_eq, opt_string_eqb_eq.
  reflexivity.
Qed.

Lemma change_notes_none (pec : Z) (pout : option string) (o : observed) :
  changed pec pout o = false -> change_notes a pec pout o = [].
Proof.
  unfold changed, change_notes. intros H.
  apply orb_false_iff in H as [-> ->]. now rewrite !andb_false_r.
Qed.

Lemma get_version_eq (uh : bool) (entry : string) :
  exists t,
    get_version w uh (Py.path_join (Py.path_join (dir a) entry) "cppcheck") entry
    = (t, Ok (entry_version a w uh entry)).
Proof. unfold get_version, entry_version. destruct uh; eexists; reflexivity. Qed.

Lemma execute_succeeds (cmd exe_path : string) :
  exists t out ec, execute a w cmd exe_path = (t, Ok (out, ec)).
Proof.
  unfold execute.
  destruct (cppcheck_run w (Py.split cmd) exe_path (timeout a));
    do 3 eexists; reflexivity.
Qed.

(** An entry whose version string parses is run: nothing is raised. *)
Lemma run_entry_succeeds (uh : bool) (entry : string) (v : Ver) :
  Version (entry_version a w uh entry) = Some v ->
  exists t out ec,
    run_entry a w uh entry = (t, Ok (entry_version a w uh entry, out, ec)).
Proof.
  intros Hv. unfold run_entry.
  destruct (get_version_eq uh entry) as [t1 ->].
  rewrite bind_ok, (build_cmd_chunks a _ _ v Hv), bind_ret_l.
  match goal with |- context [execute a w ?c ?p] =>
    destruct (execute_succeeds c p) as (t2 & out & ec & ->) end.
  destruct (verbose a); simpl; do 3 eexists; reflexivity.
Qed.

Lemma observe_succeeds (uh : bool) (entry : string) (v : Ver) :
  Version (entry_version a w uh entry) = Some v ->
  exists t o, observe a w uh entry = (t, Ok o).
Proof.
  intros Hv. unfold observe.
  destruct (run_entry_succeeds uh entry v Hv) as (t & out & ec & ->).
  rewrite bind_ok, (normalize_parsed uh _ out v Hv). simpl.
  do 2 eexists; reflexivity.
Qed.

(** C2.  In compare mode, for a run after the first, with a retained exit
    code and output: when the exit code and the filtered, stripped output
    of the run equal the retained ones, the iteration prints nothing but
    (outside compact mode) the label, so not the retained result; when
    one of them differs, it prints the retained exit code, the retained
    output and then the label of the current version (after the notes of
    verbose mode).  Either way the run becomes the retained result. *)
Theorem transition_printed_iff_changed (uh : bool) (entry : string)
        (pec : Z) (pout : option string) (v : Ver) :
  compare a = true ->
  Version (entry_version a w uh entry) = Some v ->
  exists t o,
    observe a w uh entry = (t, Ok o)
    /\ (pec = o_ec o -> pout = Some (o_out o) ->
        body a w uh (Some pec, pout) entry
        = ((t ++ (if compact a then [] else [Print (o_label o)]))%list,
           Ok (Some (o_ec o), Some (o_out o))))
    /\ (pec <> o_ec o \/ pout <> Some (o_out o) ->
        body a w uh (Some pec, pout) entry
        = ((t ++ change_notes a pec pout o
              ++ [Print (Py.str_int pec); Print (Py.str_opt pout);
                  Print (o_label o)])%list,
           Ok (Some (o_ec o), Some (o_out o)))).
Proof.
  intros Hc Hv. destruct (observe_succeeds uh entry v Hv) as (t & o & Ho).
  exists t, o. split; [exact Ho|].
  rewrite (body_next uh entry pec pout t o Hc Ho).
  split.
  - intros Hec Hout.
    assert (Hch : changed pec pout o = false) by now apply changed_false.
    rewrite Hch, (change_notes_none _ _ _ Hch). simpl.
    now destruct (compact a).
  - intros Hdiff.
    assert (Hch : changed pec pout o = true).
    { destruct (changed pec pout o) eqn:E; [reflexivity|].
      apply changed_false in E. tauto. }
    rewrite Hch, orb_true_r. reflexivity.
Qed.

(** The loop from a retained result on, with the trailing print. *)
Lemma compact_loop (uh : bool) (entries : list string)
      (runs : list (list event * observed)) :
  compare a = true -> compact a = true ->
  Forall2 (fun e r => observe a w uh e = (fst r, Ok (snd r))) entries runs ->
  forall prev,
    bind (for_each (body a w uh) entries (Some (o_ec prev), Some (o_out prev)))
         (fun st => when (compare a)
                         (print (Py.str_opt_int (fst st)) ;;
                          print (Py.str_opt (snd st))))
    = (compact_rest a prev runs, Ok tt).
Proof.
  intros Hc Hk Hruns.
  induction Hruns as [|e [t o] entries runs Ho _ IH]; intros prev.
  - simpl. now rewrite Hc.
  - simpl in Ho. simpl for_each. rewrite bind_assoc.
    rewrite (body_next uh e _ _ t o Hc Ho), bind_ok, IH, Hk.
    simpl. destruct (changed (o_ec prev) (Some (o_out prev)) o);
      now rewrite <- !app_assoc.
Qed.

Lemma compact_rest_ends (prev : observed) (runs : list (list event * observed)) :
  exists pre,
    compact_rest a prev runs
    = (pre ++ [Print (Py.str_int (o_ec (last (map snd runs) prev)));
               Print (o_out (last (map snd runs) prev))])%list.
Proof.
  revert prev. induction runs as [|[t o] runs IH]; intros prev.
  - now exists [].
  - destruct (IH o) as [pre Hpre].
    assert (Hlast : last (map snd ((t, o) :: runs)) prev = last (map snd runs) o).
    { simpl. destruct (map snd runs) as [|x l] eqn:E; [reflexivity|].
      clear. revert x. induction l as [|y l IHl]; intros x; [reflexivity|].
      simpl in *. apply IHl. }
    rewrite Hlast. simpl compact_rest. rewrite Hpre.
    eexists. rewrite !app_assoc. reflexivity.
Qed.

(** Every entry of a list whose version strings parse is observed. *)
Lemma observed_runs (uh : bool) (entries : list string) :
  (forall e, In e entries -> Version (entry_version a w uh e) <> None) ->
  exists runs,
    Forall2 (fun e r => observe a w uh e = (fst r, Ok (snd r))) entries runs.
Proof.
  induction entries as [|e entries IH]; intros Hparse.
  - exists []. constructor.
  - destruct IH as [runs Hruns]; [intros; apply Hparse; now right|].
    destruct (Version (entry_version a w uh e)) as [v|] eqn:Hv;
      [|now destruct (Hparse e (or_introl eq_refl))].
    destruct (observe_succeeds uh e v Hv) as (t & o & Ho).
    exists ((t, o) :: runs). now constructor.
Qed.

(** C7, as amended.  In compact compare mode, when every run of the
    analysis returns a result, the analysis ends normally and its events
    are those of [compact_report]: the runs themselves, the label of the
    first version, for a later version the retained result and its label
    only if exit code or output changed (an unchanged version adds nothing
    to the events of its run), and at the end the exit code and output of
    the last run. *)
Theorem compact_mode_report (uh : bool) (entries : list string)
        (runs : list (list event * observed)) :
  compare a = true -> compact a = true ->
  Forall2 (fun e r => observe a w uh e = (fst r, Ok (snd r))) entries runs ->
  analyze a w uh entries = (compact_report a runs, Ok tt)
  /\ (forall t o rest, runs = (t, o) :: rest ->
        compact_report a runs
        = (t ++ Print (o_label o) :: compact_rest a o rest)%list
        /\ exists pre,
            compact_report a runs
            = (pre ++ [Print (Py.str_int (o_ec (last (map snd rest) o)));
                       Print (o_out (last (map snd rest) o))])%list)
  /\ (forall prev t o rest,
        o_ec prev = o_ec o -> o_out prev = o_out o ->
        compact_rest a prev ((t, o) :: rest)
        = (t ++ compact_rest a o rest)%list)
  /\ (forall prev t o rest,
        o_ec prev <> o_ec o \/ o_out prev <> o_out o ->
        compact_rest a prev ((t, o) :: rest)
        = (t ++ change_notes a (o_ec prev) (Some (o_out prev)) o
             ++ [Print (Py.str_int (o_ec prev)); Print (o_out prev);
                 Print (o_label o)]
             ++ compact_rest a o rest)%list).
Proof.
  intros Hc Hk Hruns. split; [|split; [|split]].
  - unfold analyze.
    destruct Hruns as [|e [t o] entries runs Ho Hruns].
    + simpl. now rewrite Hc.
    + simpl in Ho. simpl for_each. rewrite bind_assoc.
      rewrite (body_first uh e None t o Hc Ho), bind_ok.
      rewrite (compact_loop uh entries runs Hc Hk Hruns o).
      simpl. now rewrite <- app_assoc.
  - intros t o rest ->. split; [reflexivity|].
    destruct (compact_rest_ends o rest) as [pre Hpre].
    exists (t ++ Print (o_label o) :: pre)%list.
    simpl. rewrite Hpre. now rewrite <- app_assoc.
  - intros prev t o rest Hec Hout.
    assert (Hch : changed (o_ec prev) (Some (o_out prev)) o = false)
      by (apply changed_false; split; congruence).
    simpl. now rewrite Hch, (change_notes_none _ _ _ Hch).
  - intros prev t o rest Hdiff.
    assert (Hch : changed (o_ec prev) (Some (o_out prev)) o = true).
    { destruct (changed _ _ o) eqn:E; [reflexivity|].
      apply changed_false in E as [E1 E2]. injection E2 as E2. tauto. }
    simpl. now rewrite Hch.
Qed.

End Comparator.

(** ** Execution and timeout *)

Section Timeout.

Context {L : VersionLib} {HL : VersionLaws L}.

Lemma for_each_cons {S X} (f : S -> X -> M S) (x : X) (l : list X) (st st' : S)
      (t : list event) :
  f st x = (t, Ok st') ->
  for_each f (x :: l) st
  = ((t ++ fst (for_each f l st'))%list, snd (for_each f l st')).
Proof. intros H. simpl. now rewrite H, bind_ok. Qed.

(** C6.  When the run of an entry does not finish within the timeout:
    [execute] starts the process, waits for the timeout, kills the process
    and drains it with a second [communicate()], and returns the output
    "timeout" with the exit code read after the kill; the filter and the
    strip leave "timeout" as it is; the loop body ends normally (it prints
    "timeout" as the output outside compare mode and retains it in compare
    mode) and the loop goes on with the remaining entries.  Without
    [--timeout] the timeout is 2. *)
Theorem timeout_yields_sentinel (a : Args) (w : World) (uh : bool) (st : state)
        (entry version cmd : string) (tv : list event) (v : Ver) (rc : Z) :
  let exe_path := Py.path_join (dir a) entry in
  let exe := Py.path_join exe_path "cppcheck" in
  get_version w uh exe entry = (tv, Ok version) ->
  Version version = Some v ->
  build_cmd a exe version = ([], Ok cmd) ->
  cppcheck_run w (Py.split cmd) exe_path (timeout a) = TimedOut rc ->
  execute a w cmd exe_path
  = ([Popen (Py.split cmd) (Some exe_path); CommunicateT (timeout a);
      Kill; Communicate], Ok ("timeout", rc))
  /\ (exists t, run_entry a w uh entry = (t, Ok (version, "timeout", rc)))
  /\ normalize uh version "timeout" = ret "timeout"
  /\ (exists t st',
        body a w uh st entry = (t, Ok st')
        /\ (compare a = true -> st' = (Some rc, Some "timeout"))
        /\ (compare a = false ->
            st' = st
            /\ exists t', t = (t' ++ [Print (label uh entry version);
                                      Print (Py.str_int rc);
                                      Print "timeout"])%list)
        /\ forall rest,
            for_each (body a w uh) (entry :: rest) st
            = ((t ++ fst (for_each (body a w uh) rest st'))%list,
               snd (for_each (body a w uh) rest st')))
  /\ forall d f, timeout (parser_defaults d f) = 2%Z.
Proof.
  intros exe_path exe Hgv Hv Hcmd Hrun.
  assert (Hexec : execute a w cmd exe_path
                  = ([Popen (Py.split cmd) (Some exe_path);
                      CommunicateT (timeout a); Kill; Communicate],
                     Ok ("timeout", rc))).
  { unfold execute. now rewrite Hrun. }
  assert (Hentry : exists t, run_entry a w uh entry = (t, Ok (version, "timeout", rc))).
  { unfold run_entry. fold exe_path. fold exe.
    rewrite Hgv, bind_ok, Hcmd, (bind_ret_l cmd).
    destruct (verbose a); simpl; rewrite Hexec; simpl; eexists; reflexivity. }
  assert (Hnorm : normalize uh version "timeout" = ret "timeout").
  { rewrite (normalize_parsed uh version _ v Hv). now destruct uh. }
  split; [exact Hexec|]. split; [exact Hentry|]. split; [exact Hnorm|].
  split; [|reflexivity].
  destruct Hentry as [t Ht].
  assert (Hbody : exists t' st',
             body a w uh st entry = (t', Ok st')
             /\ (compare a = true -> st' = (Some rc, Some "timeout"))
             /\ (compare a = false ->
                 st' = st
                 /\ exists t'', t' = (t'' ++ [Print (label uh entry version);
                                             Print (Py.str_int rc);
                                             Print "timeout"])%list)).
  { unfold body. rewrite Ht, bind_ok.
    destruct (compare a) eqn:Hc; simpl negb; cbv iota.
    - rewrite Hnorm, bind_ret_l.
      destruct st as [[pec|] pout].
      + rewrite report_next. simpl. eexists; eexists.
        split; [reflexivity|]. split; [reflexivity | discriminate].
      + rewrite report_first. simpl. eexists; eexists.
        split; [reflexivity|]. split; [reflexivity | discriminate].
    - simpl. eexists; eexists.
      split; [reflexivity|]. split; [discriminate|].
      intros _. split; [reflexivity|]. now exists t. }
  destruct Hbody as (t' & st' & Hb & Hcmp & Hdump).
  exists t', st'. repeat split; trivial; try (now apply Hdump).
  intros rest. now apply for_each_cons.
Qed.

End Timeout.

(** ** Fatal errors *)

Section NoExit.

Context {L : VersionLib}.

Lemma no_exit_ret {A} (x : A) : no_exit (ret x).
Proof. intros c. discriminate. Qed.

Lemma no_exit_raise {A} (e : exn) : no_exit (raise (A := A) e).
Proof. intros c. discriminate. Qed.

Lemma no_exit_emit (e : event) : no_exit (emit e).
Proof. intros c. discriminate. Qed.

Lemma no_exit_print (s : string) : no_exit (print s).
Proof. intros c. discriminate. Qed.

Lemma no_exit_bind {A B} (m : M A) (f : A -> M B) :
  no_exit m -> (forall x, no_exit (f x)) -> no_exit (bind m f).
Proof.
  intros Hm Hf c. destruct m as [t [x| |]]; simpl.
  - specialize (Hf x c). now destruct (f x).
  - now destruct (Hm code).
  - discriminate.
Qed.

Lemma no_exit_when (b : bool) (m : M unit) : no_exit m -> no_exit (when b m).
Proof. destruct b; [trivial | intros _; apply no_exit_ret]. Qed.

Lemma no_exit_mkVersion (s : string) : no_exit (mkVersion s).
Proof. unfold mkVersion. destruct (Version s); intros c; discriminate. Qed.

End NoExit.

Create HintDb noexit.

#[local] Hint Resolve no_exit_ret no_exit_raise no_exit_emit no_exit_print
  no_exit_mkVersion : noexit.

Ltac no_exit_step :=
  match goal with
  | |- forall _, _ => intro
  | |- no_exit (bind _ _) => apply no_exit_bind
  | |- no_exit (when _ _) => apply no_exit_when
  | |- no_exit (if ?c then _ else _) => destruct c
  | |- no_exit (match ?x with _ => _ end) => destruct x
  | |- no_exit _ => solve [auto with noexit]
  end.

Section FatalErrors.

Context {L : VersionLib}.

Variable a : Args.
Variable w : World.

Lemma no_exit_build_cmd (exe version : string) :
  no_exit (build_cmd a exe version).
Proof.
  unfold build_cmd, add_if, and_then, version_ge. repeat no_exit_step.
Qed.

Lemma no_exit_run_entry (uh : bool) (entry : string) :
  no_exit (run_entry a w uh entry).
Proof.
  unfold run_entry, get_version, execute.
  repeat first [apply no_exit_build_cmd | no_exit_step].
Qed.

Lemma no_exit_normalize (uh : bool) (version out : string) :
  no_exit (normalize uh version out).
Proof.
  unfold normalize, filter_guard, and_then, or_else, version_ge, version_le.
  repeat no_exit_step.
Qed.

Lemma no_exit_report (uh : bool) (entry version out : string) (ec : Z)
      (st : state) :
  no_exit (report a uh entry version ec out st).
Proof.
  destruct st as [[pec|] pout]; [rewrite report_next | rewrite report_first];
    intros c; discriminate.
Qed.

Lemma no_exit_body (uh : bool) (st : state) (entry : string) :
  no_exit (body a w uh st entry).
Proof.
  unfold body.
  repeat first [apply no_exit_run_entry | apply no_exit_normalize
               | apply no_exit_report | no_exit_step].
Qed.

Lemma no_exit_for_each (uh : bool) (entries : list string) (st : state) :
  no_exit (for_each (body a w uh) entries st).
Proof.
  revert st. induction entries as [|e entries IH]; intros st; simpl.
  - apply no_exit_ret.
  - apply no_exit_bind; [apply no_exit_body | exact IH].
Qed.

Lemma no_exit_analyze (uh : bool) (entries : list string) :
  no_exit (analyze a w uh entries).
Proof.
  unfold analyze. repeat first [apply no_exit_for_each | no_exit_step].
Qed.

Lemma stdout_of_app (t t' : list event) :
  stdout_of (t ++ t') = (stdout_of t ++ stdout_of t')%list.
Proof. unfold stdout_of. now rewrite flat_map_app. Qed.

Lemma order_as_hashes_outcome :
  no_versions a w = false ->
  order_as_hashes a w (list_versions a w)
  = if no_repo a then
      ((hash_preamble a w
        ++ [Print "error: git repository argument required for commit hash sorting"])%list,
       SysExit 1)
    else if git_failed a w then
      ((git_preamble a w
        ++ [Print "error: sorting commit hashes failed";
            Print (snd (git_answer a w))])%list,
       SysExit 1)
    else if count_mismatch a w then
      ((git_preamble a w
        ++ [Print "error: unexpected amount of versions after commit hash sorting"])%list,
       SysExit 1)
    else (git_preamble a w, Ok (true, Py.splitlines (snd (fst (git_answer a w))))).
Proof.
  unfold order_as_hashes, sort_commit_hashes, no_repo, git_failed,
    count_mismatch, git_preamble, hash_preamble, git_answer, no_versions.
  fold (submitted a w). cbv zeta. intros Hne.
  destruct (list_versions a w) as [|v0 rest] eqn:Hl; [discriminate|].
  clear Hne. simpl hd.
  set (argv := Py.split (git_cmd (submitted a w))). clearbody argv.
  set (n := length (submitted a w)). clearbody n.
  destruct (truthy (repo a)); simpl negb; cbv iota.
  - destruct (git_rev_list w argv (repo a)) as [[rc out] err]. simpl fst; simpl snd.
    destruct (rc =? 0)%Z; simpl negb; cbv iota.
    + destruct (verbose a); simpl;
        destruct (Nat.eqb (length (Py.splitlines out)) n); reflexivity.
    + destruct (verbose a); reflexivity.
  - destruct (verbose a); reflexivity.
Qed.

Lemma commit_mode_true :
  commit_mode a w = true ->
  exists s, In s (list_versions a w) /\ Version s = None.
Proof.
  unfold commit_mode. rewrite existsb_exists.
  intros (s & Hin & Hs). exists s. split; [assumption|].
  now destruct (Version s).
Qed.

Lemma commit_mode_false :
  commit_mode a w = false ->
  forall s, In s (list_versions a w) -> Version s <> None.
Proof.
  unfold commit_mode. intros H s Hin Hs.
  assert (Ht : existsb (fun s => match Version s with Some _ => false | None => true end)
                       (list_versions a w) = true).
  { apply existsb_exists. exists s. now rewrite Hs. }
  congruence.
Qed.

(** The script from line 56 on, after the two checks that need no run. *)
Lemma main_after_checks :
  bad_flags a = false -> no_versions a w = false ->
  main a w
  = (when (verbose a)
          (print ("found " ++ Py.str_int (Z.of_nat (length (list_versions a w)))
                  ++ " versions in '" ++ dir a ++ "'")) ;;
     r <- order_versions a w (list_versions a w) ;;
     when (verbose a) (print ("analyzing '" ++ infile a ++ "'")) ;;
     analyze a w (fst r) (snd r) ;;
     when (verbose a) (print "done")).
Proof.
  unfold bad_flags, no_versions, main. intros Hb Hn. cbv zeta. rewrite Hn.
  assert (Hw : when (compact a)
                    (when (negb (compare a))
                          (print "error: --compact requires --compare" ;;
                           sys_exit 1)) = ret tt).
  { destruct (compact a), (compare a); try reflexivity; discriminate. }
  rewrite Hw, bind_ret_l. simpl when at 1. rewrite bind_ret_l.
  destruct (when (verbose a) _) as [t0 [[]| |]]; simpl; trivial.
  destruct (order_versions a w (list_versions a w)) as [t1 [[uh vs]| |]];
    reflexivity.
Qed.

Lemma main_exits_in_order (t : list event) (c : Z) :
  bad_flags a = false -> no_versions a w = false ->
  order_versions a w (list_versions a w) = (t, SysExit c) ->
  snd (main a w) = SysExit c
  /\ exists t0, fst (main a w) = (t0 ++ t)%list.
Proof.
  intros Hb Hn Ho. rewrite (main_after_checks Hb Hn), Ho.
  destruct (verbose a); simpl; (split; [reflexivity|]).
  - now exists [Print ("found " ++ Py.str_int (Z.of_nat (length (list_versions a w)))
                     ++ " versions in '" ++ dir a ++ "'")].
  - now exists [].
Qed.

Lemma main_goes_on (t : list event) (r : bool * list string) :
  bad_flags a = false -> no_versions a w = false ->
  order_versions a w (list_versions a w) = (t, Ok r) ->
  no_exit (main a w).
Proof.
  intros Hb Hn Ho. rewrite (main_after_checks Hb Hn), Ho.
  apply no_exit_bind; [apply no_exit_when, no_exit_print|]. intros _.
  rewrite bind_ok. intros c. simpl snd.
  revert c. change (no_exit (when (verbose a) (print ("analyzing '" ++ infile a ++ "'")) ;;
                             analyze a w (fst r) (snd r) ;;
                             when (verbose a) (print "done"))).
  repeat first [apply no_exit_analyze | no_exit_step].
Qed.

(** C8, as amended.  [sys.exit] is only ever called with status 1, and it
    is called exactly in five cases: [--compact] without [--compare]; no
    sub-directory; commit hashes without a repository argument; commit
    hashes and a git query that ends with a status other than 0; commit
    hashes and a git answer of another length than the list it was given.
    In each case the error message is the last thing printed (followed,
    for a failed git query, by git's diagnostic text). *)
Theorem fatal_exit_cases :
  (forall c, snd (main a w) = SysExit c ->
             c = 1%Z /\ fatal_cases a w = true)
  /\ (fatal_cases a w = true ->
      snd (main a w) = SysExit 1
      /\ exists t, stdout_of (fst (main a w)) = (t ++ fatal_lines a w)%list).
Proof.
  unfold fatal_cases, fatal_lines.
  destruct (bad_flags a) eqn:Hb.
  { assert (Hm : main a w = ([Print "error: --compact requires --compare"], SysExit 1)).
    { unfold bad_flags in Hb. unfold main.
      destruct (compact a), (compare a); try discriminate. reflexivity. }
    rewrite Hm. simpl. split.
    - intros c Hc. injection Hc as <-. auto.
    - intros _. split; [reflexivity | now exists []]. }
  destruct (no_versions a w) eqn:Hn.
  { assert (Hm : main a w
                 = ([Print ("error: no versions found in '" ++ dir a ++ "'")],
                    SysExit 1)).
    { unfold bad_flags in Hb. unfold no_versions in Hn. unfold main.
      cbv zeta. rewrite Hn.
      destruct (compact a), (compare a); try discriminate; reflexivity. }
    rewrite Hm. simpl. split.
    - intros c Hc. injection Hc as <-. auto.
    - intros _. split; [reflexivity | now exists []]. }
  simpl orb.
  destruct (commit_mode a w) eqn:Hm.
  - pose proof (order_versions_hashes a w _ (commit_mode_true Hm)) as Ho.
    rewrite (order_as_hashes_outcome Hn) in Ho. simpl andb.
    destruct (no_repo a); [|destruct (git_failed a w); [|destruct (count_mismatch a w)]];
      simpl orb.
    1-3: destruct (main_exits_in_order _ _ Hb Hn Ho) as [Hs [t0 Ht]];
      rewrite Hs, Ht; split;
      [ intros c Hc; injection Hc as <-; auto
      | intros _; split; [reflexivity|];
        rewrite !stdout_of_app; simpl;
        eexists; rewrite app_assoc; reflexivity ].
    split; [|discriminate].
    intros c Hc. now destruct (main_goes_on _ _ Hb Hn Ho c).
  - simpl. split; [|discriminate].
    assert (Hne : list_versions a w <> []).
    { unfold no_versions in Hn. destruct (list_versions a w); [discriminate | congruence]. }
    destruct (order_as_versions_ok _ Hne (commit_mode_false Hm))
      as (ks & _ & _ & _ & Hord).
    assert (Ho : order_versions a w (list_versions a w)
                 = ([], Ok (false, map snd (sort_keyed ks)))).
    { unfold order_versions. now rewrite Hord. }
    intros c Hc. now destruct (main_goes_on _ _ Hb Hn Ho c).
Qed.

End FatalErrors.

(** ** The release-segment versions satisfy the laws *)

Section DottedFacts.

Lemma lex_le_total (x y : list N) :
  Dotted.lex_le x y = true \/ Dotted.lex_le y x = true.
Proof.
  revert y; induction x as [|p x IH]; intros [|q y]; simpl; auto.
  destruct (N.lt_trichotomy p q) as [H|[H|H]].
  - left. apply N.ltb_lt in H. now rewrite H.
  - subst q. rewrite N.eqb_refl, N.ltb_irrefl. simpl. apply IH.
  - right. apply N.ltb_lt in H. now rewrite H.
Qed.

Lemma lex_le_trans (x y z : list N) :
  Dotted.lex_le x y = true -> Dotted.lex_le y z = true ->
  Dotted.lex_le x z = true.
Proof.
  revert y z; induction x as [|p x IH]; intros [|q y] [|r z]; simpl; auto;
    try discriminate.
  rewrite !orb_true_iff, !andb_true_iff, !N.ltb_lt, !N.eqb_eq.
  intros [H1|[H1 H1']] [H2|[H2 H2']].
  - left; lia.
  - left; lia.
  - left; lia.
  - right; split; [lia | eauto].
Qed.

Lemma dotted_laws : VersionLaws Dotted.lib.
Proof.
  split.
  - exact lex_le_total.
  - exact lex_le_trans.
  - intros s Hs. simpl in Hs.
    repeat (destruct Hs as [<- | Hs]; [vm_compute; discriminate|]).
    contradiction.
  - intros x y Hx Hy. vm_compute in Hx, Hy.
    injection Hx as <-. injection Hy as <-. reflexivity.
Qed.

End DottedFacts.

(** ** The script on the demo folders *)

Section Runs.

Import Dotted.

Example dotted_parse_ex :
  Version "1.10" = Some [1; 10]%N /\ Version "1.9.0" = Some [1; 9]%N
  /\ Version "cppcheck" = None /\ Version "1..2" = None /\ Version "" = None.
Proof. repeat split; reflexivity. Qed.

Example check_library_from_1_61 :
  snd (build_cmd Demo.debugging "builds/1.61/cppcheck" "1.61")
  = Ok "builds/1.61/cppcheck --debug --debug-warnings --check-library --enable=all --inline-suppr --suppress=missingInclude --suppress=missingIncludeSystem --suppress=unmatchedSuppression --suppress=unusedFunction --inconclusive x.c"
  /\ snd (build_cmd Demo.debugging "builds/1.60/cppcheck" "1.60")
     = Ok "builds/1.60/cppcheck --debug --debug-warnings --enable=all --inline-suppr --suppress=missingInclude --suppress=missingIncludeSystem --suppress=unmatchedSuppression --suppress=unusedFunction --inconclusive x.c"
  /\ snd (build_cmd Demo.debugging "builds/1.38/cppcheck" "1.38")
     = Ok "builds/1.38/cppcheck x.c".
Proof. repeat split; reflexivity. Qed.

(** The scenario of the specification: 1.38 reports nothing, 1.39 one
    warning. *)
Example releases_compared :
  stdout_of (fst (main Demo.comparing Demo.releases))
  = ["1.38"; "0"; ""; "1.39"; "0"; Demo.warning]
  /\ snd (main Demo.comparing Demo.releases) = Ok tt.
Proof. split; reflexivity. Qed.

Example releases_dumped :
  stdout_of (fst (main Demo.plain Demo.releases))
  = ["1.38"; "0"; Py.nl; "1.39"; "0"; Py.nl ++ Demo.warning ++ Py.nl].
Proof. reflexivity. Qed.

Example uncaught_version :
  snd (body Demo.plain Demo.releases false (None, None) "notes.txt")
  = Uncaught (InvalidVersion "notes.txt").
Proof. reflexivity. Qed.

(** The command builder at release 1.61 with the pass-through flags. *)
Lemma gated_flags_witness :
  Version "1.61" = Some [1; 61]%N
  /\ exists cmd gated,
      build_cmd Demo.debugging "builds/1.61/cppcheck" "1.61" = ([], Ok cmd)
      /\ Py.split cmd
         = (Py.split "builds/1.61/cppcheck" ++ gated ++ Py.split "x.c")%list
      /\ (In "--check-library" gated
          <-> check_library Demo.debugging = true /\ meets "1.61" "1.61" = true).
Proof.
  split; [reflexivity|].
  destruct (gated_flags_follow_thresholds (HL := dotted_laws) Demo.debugging
              "builds/1.61/cppcheck" "1.61" [1; 61]%N eq_refl)
    as (cmd & gated & H1 & H2 & _ & _ & _ & H3 & _).
  exists cmd, gated. auto.
Defined.

(** Release 1.39 after a retained result without the warning. *)
Lemma transition_witness :
  compare Demo.comparing = true
  /\ Version (entry_version Demo.comparing Demo.releases false "1.39")
     = Some [1; 39]%N
  /\ body Demo.comparing Demo.releases false (Some 0%Z, Some "") "1.39"
     = ([Popen ["builds/1.39/cppcheck"; "-q"; "--enable=all"; "x.c"]
               (Some "builds/1.39"); CommunicateT 2;
         Print "0"; Print ""; Print "1.39"],
        Ok (Some 0%Z, Some Demo.warning)).
Proof.
  split; [reflexivity|]. split; [reflexivity|].
  destruct (transition_printed_iff_changed (HL := dotted_laws) Demo.comparing
              Demo.releases false "1.39" 0 (Some "") [1; 39]%N
              eq_refl eq_refl) as (t & o & Ho & _ & Hdiff).
  injection Ho as <- <-. apply Hdiff. right. discriminate.
Defined.

(** The guard at release 1.38, below both literals. *)
Lemma noise_guard_witness :
  Version "1.38" = Some [1; 38]%N
  /\ or_else (version_ge "1.38" "1.48") (version_le "1.38" "1.49") = ret true
  /\ filter_guard false "1.38" = ret true.
Proof.
  split; [reflexivity|].
  destruct (noise_guard_always_true (HL := dotted_laws) "1.38" [1; 38]%N eq_refl)
    as (H1 & H2 & _).
  split; assumption.
Defined.

(** Four release names, listed out of order. *)
Lemma versions_sorted_witness :
  ["1.10"; "1.9"; "1.9.1"; "1.38"] <> []
  /\ (forall s, In s ["1.10"; "1.9"; "1.9.1"; "1.38"] -> Version s <> None)
  /\ exists sorted,
      order_versions Demo.plain Demo.releases ["1.10"; "1.9"; "1.9.1"; "1.38"]
      = ([], Ok (false, sorted))
      /\ Permutation ["1.10"; "1.9"; "1.9.1"; "1.38"] sorted
      /\ StronglySorted name_le sorted.
Proof.
  assert (Hne : ["1.10"; "1.9"; "1.9.1"; "1.38"] <> []) by discriminate.
  assert (Hall : forall s, In s ["1.10"; "1.9"; "1.9.1"; "1.38"] ->
                           Version s <> None).
  { intros s Hs. simpl in Hs.
    repeat (destruct Hs as [<- | Hs]; [vm_compute; discriminate|]).
    contradiction. }
  split; [exact Hne|]. split; [exact Hall|].
  destruct (versions_sorted_by_precedence (HL := dotted_laws) Demo.plain
              Demo.releases _ Hne Hall) as (sorted & H1 & H2 & H3 & _).
  exists sorted. auto.
Defined.

(** The two commits of [Demo.commits]. *)
Lemma commit_hashes_witness :
  (exists s, In s ["b2c3d4e"; "cppcheck"; "a1b2c3d"] /\ Version s = None)
  /\ truthy (repo (Demo.comparing_repo false false)) = true
  /\ snd (order_versions (Demo.comparing_repo false false) Demo.commits
                         ["b2c3d4e"; "cppcheck"; "a1b2c3d"])
     = Ok (true, ["a1b2c3d"; "b2c3d4e"]).
Proof.
  assert (Hbad : exists s, In s ["b2c3d4e"; "cppcheck"; "a1b2c3d"]
                           /\ Version s = None).
  { exists "cppcheck". split; [simpl; tauto | reflexivity]. }
  split; [exact Hbad|]. split; [reflexivity|].
  destruct (commit_hashes_ordered_by_git (Demo.comparing_repo false false)
              Demo.commits ["b2c3d4e"; "cppcheck"; "a1b2c3d"]
              ("a1b2c3d" ++ Py.nl ++ "b2c3d4e" ++ Py.nl) ""
              Hbad eq_refl eq_refl) as (_ & _ & Hok & _).
  exact (proj1 (Hok eq_refl)).
Defined.

(** Release 1.50 of [Demo.hangs] does not finish. *)
Lemma timeout_witness :
  get_version Demo.hangs false "builds/1.50/cppcheck" "1.50" = ([], Ok "1.50")
  /\ Version "1.50" = Some [1; 50]%N
  /\ cppcheck_run Demo.hangs
       (Py.split "builds/1.50/cppcheck  -q --enable=all --inline-suppr --suppress=missingInclude --suppress=missingIncludeSystem --suppress=unmatchedSuppression --suppress=unusedFunction --inconclusive x.c")
       "builds/1.50" 2 = TimedOut (-9)
  /\ snd (execute Demo.comparing Demo.hangs
            "builds/1.50/cppcheck  -q --enable=all --inline-suppr --suppress=missingInclude --suppress=missingIncludeSystem --suppress=unmatchedSuppression --suppress=unusedFunction --inconclusive x.c"
            "builds/1.50")
     = Ok ("timeout", (-9)%Z)
  /\ normalize false "1.50" "timeout" = ret "timeout".
Proof.
  split; [reflexivity|]. split; [reflexivity|]. split; [reflexivity|].
  destruct (timeout_yields_sentinel (HL := dotted_laws) Demo.comparing Demo.hangs
              false (None, None) "1.50" "1.50"
              "builds/1.50/cppcheck  -q --enable=all --inline-suppr --suppress=missingInclude --suppress=missingIncludeSystem --suppress=unmatchedSuppression --suppress=unusedFunction --inconclusive x.c"
              [] [1; 50]%N (-9) eq_refl eq_refl eq_refl eq_refl)
    as (H1 & _ & H3 & _).
  split; [exact (f_equal snd H1) | exact H3].
Defined.

(** The two releases in compact compare mode, the older one listed
    twice. *)
Lemma compact_mode_witness :
  compare Demo.compact_comparing = true
  /\ compact Demo.compact_comparing = true
  /\ Forall2 (fun e r => observe Demo.compact_comparing Demo.releases false e
                         = (fst r, Ok (snd r)))
             ["1.38"; "1.38"; "1.39"]
             [([Popen ["builds/1.38/cppcheck"; "-q"; "x.c"] (Some "builds/1.38");
                CommunicateT 2],
               {| o_version := "1.38"; o_label := "1.38"; o_ec := 0%Z;
                  o_out := "" |});
              ([Popen ["builds/1.38/cppcheck"; "-q"; "x.c"] (Some "builds/1.38");
                CommunicateT 2],
               {| o_version := "1.38"; o_label := "1.38"; o_ec := 0%Z;
                  o_out := "" |});
              ([Popen ["builds/1.39/cppcheck"; "-q"; "--enable=all"; "x.c"]
                      (Some "builds/1.39"); CommunicateT 2],
               {| o_version := "1.39"; o_label := "1.39"; o_ec := 0%Z;
                  o_out := Demo.warning |})]
  /\ stdout_of (fst (analyze Demo.compact_comparing Demo.releases false
                             ["1.38"; "1.38"; "1.39"]))
     = ["1.38"; "0"; ""; "1.39"; "0"; Demo.warning].
Proof.
  split; [reflexivity|]. split; [reflexivity|].
  match goal with |- ?H /\ _ => assert (Hruns : H) by (repeat constructor) end.
  split; [exact Hruns|].
  destruct (compact_mode_report Demo.compact_comparing Demo.releases false
              _ _ eq_refl eq_refl Hruns) as [H _].
  rewrite H. reflexivity.
Defined.

(** C7, as stated, fails: the folder of [DemoMore.unknown_version] holds
    one commit, so the version list is not empty, but its binary reports
    no version; in compact compare mode the script then prints nothing at
    all, neither the label of the first version nor a last result, and
    ends with the exception. *)
Lemma first_label_not_always_printed :
  compare (Demo.comparing_repo true false) = true
  /\ compact (Demo.comparing_repo true false) = true
  /\ snd (order_versions (Demo.comparing_repo true false)
                         DemoMore.unknown_version
                         (list_versions (Demo.comparing_repo true false)
                                        DemoMore.unknown_version))
     = Ok (true, ["a1b2c3d"])
  /\ stdout_of (fst (main (Demo.comparing_repo true false)
                          DemoMore.unknown_version)) = []
  /\ snd (main (Demo.comparing_repo true false) DemoMore.unknown_version)
     = Uncaught (InvalidVersion "unknown")
  /\ stdout_of (fst (analyze (Demo.comparing_repo true false)
                             DemoMore.unknown_version true ["a1b2c3d"])) = []
  /\ ~ In (Print "a1b2c3d (unknown)")
          (fst (analyze (Demo.comparing_repo true false)
                        DemoMore.unknown_version true ["a1b2c3d"])).
Proof.
  repeat split. simpl. intuition discriminate.
Qed.

(** C8, as stated, fails: with [Demo.commits_git_fails] the script exits
    with 1 after its message about the failed sorting, in none of the four
    cases: the flags are consistent, there are sub-directories, a
    repository is given, and git lists as many commits as it was given. *)
Lemma four_fatal_cases_incomplete :
  snd (main (Demo.comparing_repo false false) Demo.commits_git_fails)
  = SysExit 1
  /\ stdout_of (fst (main (Demo.comparing_repo false false)
                          Demo.commits_git_fails))
     = ["error: sorting commit hashes failed"; "fatal: bad object"]
  /\ four_fatal_cases (Demo.comparing_repo false false) Demo.commits_git_fails
     = false
  /\ ~ (snd (main (Demo.comparing_repo false false) Demo.commits_git_fails)
        = SysExit 1
        <-> four_fatal_cases (Demo.comparing_repo false false)
                             Demo.commits_git_fails = true).
Proof.
  repeat split.
  intros [H _]. specialize (H eq_refl). discriminate.
Qed.

End Runs.

(** ** Further properties: the events of one run *)

Section RunEvents.

Context {L : VersionLib}.

Variable a : Args.
Variable w : World.

Lemma silent_ret {A} (x : A) : silent (ret x).
Proof. reflexivity. Qed.

Lemma silent_raise {A} (e : exn) : silent (raise (A := A) e).
Proof. reflexivity. Qed.

Lemma silent_bind {A B} (m : M A) (f : A -> M B) :
  silent m -> (forall x, silent (f x)) -> silent (bind m f).
Proof.
  unfold silent. intros Hm Hf. destruct m as [t [x| |]]; simpl in *; trivial.
  specialize (Hf x). destruct (f x) as [t' r]. simpl in *. now subst.
Qed.

Lemma silent_mkVersion (s : string) : silent (mkVersion s).
Proof. unfold mkVersion. now destruct (Version s). Qed.

Lemma silent_version_ge (s lit : string) : silent (version_ge s lit).
Proof.
  unfold version_ge.
  repeat (apply silent_bind; [apply silent_mkVersion | intro]).
  apply silent_ret.
Qed.

Lemma silent_version_le (s lit : string) : silent (version_le s lit).
Proof.
  unfold version_le.
  repeat (apply silent_bind; [apply silent_mkVersion | intro]).
  apply silent_ret.
Qed.

Lemma silent_and_then (x : bool) (m : M bool) : silent m -> silent (and_then x m).
Proof. destruct x; [trivial | intros _; apply silent_ret]. Qed.

Lemma silent_add_if (c : M bool) (flag cmd : string) :
  silent c -> silent (add_if c flag cmd).
Proof.
  intros Hc. unfold add_if. apply silent_bind; [exact Hc | intro; apply silent_ret].
Qed.

(** Building the command starts no process and prints nothing. *)
Lemma silent_build_cmd (exe version : string) : silent (build_cmd a exe version).
Proof.
  unfold build_cmd.
  repeat (apply silent_bind;
          [apply silent_add_if;
           first [apply silent_ret | apply silent_version_ge
                 | apply silent_and_then, silent_version_ge]
          | intro]).
  apply silent_ret.
Qed.

Lemma silent_normalize (uh : bool) (version out : string) :
  silent (normalize uh version out).
Proof.
  unfold normalize, filter_guard. apply silent_bind; [|intro; apply silent_ret].
  apply silent_and_then. unfold or_else.
  apply silent_bind; [apply silent_version_ge|].
  intros [|]; [apply silent_ret | apply silent_version_le].
Qed.

Lemma bind_ok_inv {A B} (m : M A) (f : A -> M B) (t : list event) (y : B) :
  bind m f = (t, Ok y) ->
  exists t1 x t2, m = (t1, Ok x) /\ f x = (t2, Ok y) /\ t = (t1 ++ t2)%list.
Proof.
  destruct m as [t1 [x| |]]; simpl; try discriminate.
  destruct (f x) as [t2 r] eqn:E. intros H. injection H as <- ->.
  now exists t1, x, t2.
Qed.

(** The events of a run that ends normally are [run_events] of its
    command. *)
Lemma run_entry_trace (uh : bool) (entry : string) (t : list event)
      (r : string * string * Z) :
  run_entry a w uh entry = (t, Ok r) ->
  exists cmd,
    build_cmd a (Py.path_join (Py.path_join (dir a) entry) "cppcheck")
              (entry_version a w uh entry) = ([], Ok cmd)
    /\ fst (fst r) = entry_version a w uh entry
    /\ t = run_events a w uh entry cmd.
Proof.
  unfold run_entry. intros H.
  apply bind_ok_inv in H as (t1 & version & t' & Hgv & H & ->).
  apply bind_ok_inv in H as (t2 & cmd & t'' & Hcmd & H & ->).
  apply bind_ok_inv in H as (t3 & [] & t4 & Hverb & H & ->).
  apply bind_ok_inv in H as (t5 & [out ec] & t6 & Hexec & H & ->).
  injection H as <- <-.
  assert (Hv : version = entry_version a w uh entry
               /\ t1 = if uh
                       then [Popen (Py.split (Py.path_join (Py.path_join (dir a) entry) "cppcheck"
                                               ++ " " ++ "--version")) None; ReadStdout]
                       else []).
  { unfold get_version, entry_version in *. destruct uh; simpl in Hgv |- *;
      injection Hgv as <- <-; split; reflexivity. }
  destruct Hv as [-> ->].
  pose proof (silent_build_cmd (Py.path_join (Py.path_join (dir a) entry) "cppcheck")
                               (entry_version a w uh entry)) as Hs.
  unfold silent in Hs. rewrite Hcmd in Hs. simpl in Hs. subst t2.
  exists cmd. split; [exact Hcmd|]. split; [reflexivity|].
  unfold run_events, execute in *.
  destruct (cppcheck_run w (Py.split cmd) (Py.path_join (dir a) entry) (timeout a));
    simpl in Hexec; injection Hexec as <- <- <-;
    destruct (verbose a); simpl in Hverb; injection Hverb as <-;
    simpl; rewrite ?app_nil_r; reflexivity.
Qed.

Lemma count_runs_app (t t' : list event) :
  count_runs (t ++ t') = count_runs t + count_runs t'.
Proof. unfold count_runs. now rewrite filter_app, length_app. Qed.

Lemma run_events_count (uh : bool) (entry cmd : string) :
  count_runs (run_events a w uh entry cmd) = 1.
Proof.
  unfold run_events.
  destruct uh, (verbose a), (cppcheck_run w _ _ _); reflexivity.
Qed.

Lemma run_events_quiet (uh : bool) (entry cmd : string) :
  verbose a = false -> stdout_of (run_events a w uh entry cmd) = [].
Proof.
  intros Hv. unfold run_events. rewrite Hv.
  destruct uh, (cppcheck_run w _ _ _); reflexivity.
Qed.

End RunEvents.

(** ** Further properties: whole analyses *)

Section WholeRuns.

Context {L : VersionLib} {HL : VersionLaws L}.

Variable a : Args.
Variable w : World.

Lemma for_each_app {S X} (f : S -> X -> M S) (l1 l2 : list X) (st : S) :
  for_each f (l1 ++ l2) st
  = bind (for_each f l1 st) (fun st' => for_each f l2 st').
Proof.
  revert st. induction l1 as [|x l1 IH]; intros st; simpl.
  - now destruct (for_each f l2 st).
  - rewrite bind_assoc. destruct (f st x) as [t [st'| |]]; simpl; trivial.
    now rewrite IH.
Qed.

Lemma body_dump (uh : bool) (st : state) (entry : string) (t : list event)
      (version out : string) (ec : Z) :
  compare a = false ->
  run_entry a w uh entry = (t, Ok (version, out, ec)) ->
  body a w uh st entry
  = ((t ++ [Print (label uh entry version); Print (Py.str_int ec); Print out])%list,
     Ok st).
Proof. intros Hc Hr. unfold body. now rewrite Hr, Hc. Qed.

Lemma runs_exist (uh : bool) (entries : list string) :
  (forall e, In e entries -> Version (entry_version a w uh e) <> None) ->
  exists runs,
    Forall2 (fun e r => run_entry a w uh e = (fst r, Ok (snd r))) entries runs.
Proof.
  induction entries as [|e entries IH]; intros Hparse.
  - exists []. constructor.
  - destruct IH as [runs Hruns]; [intros; apply Hparse; now right|].
    destruct (Version (entry_version a w uh e)) as [v|] eqn:Hv;
      [|now destruct (Hparse e (or_introl eq_refl))].
    destruct (run_entry_succeeds (HL := HL) a w uh e v Hv) as (t & out & ec & Hr).
    exists ((t, (entry_version a w uh e, out, ec)) :: runs). now constructor.
Qed.

Lemma dump_loop (uh : bool) (entries : list string)
      (runs : list (list event * (string * string * Z))) :
  compare a = false ->
  Forall2 (fun e r => run_entry a w uh e = (fst r, Ok (snd r))) entries runs ->
  forall st, for_each (body a w uh) entries st
             = (dump_report uh entries runs, Ok st).
Proof.
  intros Hc Hruns. induction Hruns as [|e [t [[version out] ec]] entries runs Hr _ IH];
    intros st; [reflexivity|].
  simpl in Hr. simpl for_each.
  rewrite (body_dump uh st e t version out ec Hc Hr), bind_ok, IH.
  simpl. now rewrite <- app_assoc.
Qed.

Lemma dump_report_stdout (uh : bool) (entries : list string)
      (runs : list (list event * (string * string * Z))) :
  verbose a = false ->
  Forall2 (fun e r => run_entry a w uh e = (fst r, Ok (snd r))) entries runs ->
  stdout_of (dump_report uh entries runs)
  = flat_map (fun p : string * (string * string * Z) =>
                let '(e, (version, out, ec)) := p in
                [label uh e version; Py.str_int ec; out])
             (combine entries (map snd runs)).
Proof.
  intros Hv Hruns.
  induction Hruns as [|e [t [[version out] ec]] entries runs Hr _ IH];
    [reflexivity|].
  simpl in Hr. destruct (run_entry_trace a w uh e t _ Hr) as (cmd & _ & _ & ->).
  simpl. rewrite stdout_of_app, (run_events_quiet a w uh e cmd Hv).
  simpl. now rewrite IH.
Qed.

(** What a run that returned has returned: the version string of the
    entry, and the output and exit code of [run_result]. *)
Lemma run_entry_result (uh : bool) (entry : string) (t : list event)
      (r : string * string * Z) :
  run_entry a w uh entry = (t, Ok r) ->
  exists cmd,
    build_cmd a (Py.path_join (Py.path_join (dir a) entry) "cppcheck")
              (entry_version a w uh entry) = ([], Ok cmd)
    /\ r = (entry_version a w uh entry,
            fst (run_result (cppcheck_run w (Py.split cmd)
                               (Py.path_join (dir a) entry) (timeout a))),
            snd (run_result (cppcheck_run w (Py.split cmd)
                               (Py.path_join (dir a) entry) (timeout a)))).
Proof.
  intros Hr.
  destruct (run_entry_trace a w uh entry t r Hr) as (cmd & Hcmd & _ & _).
  exists cmd. split; [exact Hcmd|].
  unfold run_entry in Hr. cbv zeta in Hr.
  destruct (get_version_eq a w uh entry) as [t1 Hgv].
  rewrite Hgv, bind_ok, Hcmd, (bind_ret_l cmd) in Hr.
  unfold execute in Hr.
  destruct (cppcheck_run w (Py.split cmd) (Py.path_join (dir a) entry) (timeout a));
    destruct (verbose a); simpl in Hr; injection Hr as _ <-; reflexivity.
Qed.

(** X1.  Without [--compare], when every run of the analysis returns a
    result, the analysis ends normally; after the events of each run it
    prints the label, the exit code and the output of that run (standard
    output, a newline and standard error, or [timeout] after a timeout),
    in processing order, and nothing after the loop; outside verbose mode
    these three lines per entry are all that is printed. *)
Theorem dump_mode_report (uh : bool) (entries : list string)
        (runs : list (list event * (string * string * Z))) :
  compare a = false ->
  Forall2 (fun e r => run_entry a w uh e = (fst r, Ok (snd r))) entries runs ->
  analyze a w uh entries = (dump_report uh entries runs, Ok tt)
  /\ (verbose a = false ->
      stdout_of (fst (analyze a w uh entries))
      = flat_map (fun p : string * (string * string * Z) =>
                    let '(e, (version, out, ec)) := p in
                    [label uh e version; Py.str_int ec; out])
                 (combine entries (map snd runs)))
  /\ Forall2 (fun e r =>
                exists cmd,
                  build_cmd a (Py.path_join (Py.path_join (dir a) e) "cppcheck")
                            (entry_version a w uh e) = ([], Ok cmd)
                  /\ snd r
                     = (entry_version a w uh e,
                        fst (run_result (cppcheck_run w (Py.split cmd)
                                           (Py.path_join (dir a) e) (timeout a))),
                        snd (run_result (cppcheck_run w (Py.split cmd)
                                           (Py.path_join (dir a) e) (timeout a)))))
             entries runs.
Proof.
  intros Hc Hruns.
  assert (Han : analyze a w uh entries = (dump_report uh entries runs, Ok tt)).
  { unfold analyze. rewrite (dump_loop uh entries runs Hc Hruns), bind_ok, Hc.
    simpl. now rewrite app_nil_r. }
  split; [exact Han|]. split.
  - intros Hv. rewrite Han. now apply dump_report_stdout.
  - clear Han. induction Hruns as [|e r entries runs Hr _ IH]; constructor.
    + exact (run_entry_result uh e (fst r) (snd r) Hr).
    + exact IH.
Qed.

(** The loop of compare mode from a retained result on, with the trailing
    print, compact or not. *)
Lemma compare_loop (uh : bool) (entries : list string)
      (runs : list (list event * observed)) :
  compare a = true ->
  Forall2 (fun e r => observe a w uh e = (fst r, Ok (snd r))) entries runs ->
  forall prev,
    bind (for_each (body a w uh) entries (Some (o_ec prev), Some (o_out prev)))
         (fun st => when (compare a)
                         (print (Py.str_opt_int (fst st)) ;;
                          print (Py.str_opt (snd st))))
    = (compare_rest a prev runs, Ok tt).
Proof.
  intros Hc Hruns.
  induction Hruns as [|e [t o] entries runs Ho _ IH]; intros prev.
  - simpl. now rewrite Hc.
  - simpl in Ho. simpl for_each. rewrite bind_assoc.
    rewrite (body_next a w uh e _ _ t o Hc Ho), bind_ok, IH.
    simpl. now rewrite <- !app_assoc.
Qed.

Lemma compare_analysis (uh : bool) (entries : list string)
      (runs : list (list event * observed)) :
  compare a = true ->
  Forall2 (fun e r => observe a w uh e = (fst r, Ok (snd r))) entries runs ->
  analyze a w uh entries = (compare_report a runs, Ok tt).
Proof.
  intros Hc Hruns. unfold analyze.
  destruct Hruns as [|e [t o] entries runs Ho Hruns].
  - simpl. now rewrite Hc.
  - simpl in Ho. simpl for_each. rewrite bind_assoc.
    rewrite (body_first a w uh e None t o Hc Ho), bind_ok.
    rewrite (compare_loop uh entries runs Hc Hruns o).
    simpl. now rewrite <- app_assoc.
Qed.

Lemma compare_rest_labels (prev : observed) (runs : list (list event * observed)) :
  compact a = false ->
  forall r, In r runs -> In (Print (o_label (snd r))) (compare_rest a prev runs).
Proof.
  intros Hk. revert prev.
  induction runs as [|[t o] runs IH]; intros prev r Hin; [destruct Hin|].
  simpl compare_rest. rewrite Hk. simpl negb. simpl orb.
  rewrite !in_app_iff. destruct Hin as [<-|Hin].
  - simpl. auto 10.
  - specialize (IH o r Hin). simpl. auto 10.
Qed.

(** X2.  In compare mode, compact or not, when every run of the analysis
    returns a result, the analysis ends normally with the events of
    [compare_report]: the label of the first version, for each later
    version the retained exit code and output if something changed and
    its label (dropped by [--compact] when nothing changed), and at the end
    the retained result.  Without [--compact] the label of every version is
    printed. *)
Theorem compare_mode_report (uh : bool) (entries : list string)
        (runs : list (list event * observed)) :
  compare a = true ->
  Forall2 (fun e r => observe a w uh e = (fst r, Ok (snd r))) entries runs ->
  analyze a w uh entries = (compare_report a runs, Ok tt)
  /\ (compact a = false ->
      forall r, In r runs ->
                In (Print (o_label (snd r))) (fst (analyze a w uh entries))).
Proof.
  intros Hc Hruns.
  rewrite (compare_analysis uh entries runs Hc Hruns).
  split; [reflexivity|].
  intros Hk r Hin. simpl fst.
  destruct runs as [|[t o] runs]; [destruct Hin|].
  simpl compare_report. rewrite !in_app_iff.
  destruct Hin as [<-|Hin].
  - simpl. auto.
  - pose proof (compare_rest_labels o runs Hk r Hin). simpl. auto.
Qed.

(** An analysis of entries whose version strings parse ends normally. *)
Lemma analyze_succeeds (uh : bool) (entries : list string) :
  (forall e, In e entries -> Version (entry_version a w uh e) <> None) ->
  exists t, analyze a w uh entries = (t, Ok tt).
Proof.
  intros Hparse. destruct (compare a) eqn:Hc.
  - destruct (observed_runs (HL := HL) a w uh entries Hparse) as [runs Hruns].
    eexists. exact (compare_analysis uh entries runs Hc Hruns).
  - destruct (runs_exist uh entries Hparse) as [runs Hruns].
    exists (dump_report uh entries runs). unfold analyze.
    rewrite (dump_loop uh entries runs Hc Hruns), bind_ok, Hc.
    simpl. now rewrite app_nil_r.
Qed.

End WholeRuns.

(** ** Further properties: one run per entry, aborted analyses *)

Section Counting.

Context {L : VersionLib}.

Variable a : Args.
Variable w : World.

Lemma report_prints (uh : bool) (entry version out : string) (ec : Z)
      (st : state) :
  forallb is_print (fst (report a uh entry version ec out st)) = true.
Proof.
  destruct st as [[pec|] pout]; [rewrite report_next | rewrite report_first];
    [|reflexivity].
  unfold change_notes, changed. simpl.
  destruct (verbose a), (pec =? ec)%Z, (opt_string_eqb pout (Some out)),
    (compact a); reflexivity.
Qed.

Lemma prints_count (t : list event) :
  forallb is_print t = true -> count_runs t = 0 /\ procs_of t = [].
Proof.
  induction t as [|e t IH]; [now split|].
  simpl. intros H. apply andb_true_iff in H as [He Ht].
  destruct (IH Ht) as [IH1 IH2]. unfold count_runs, procs_of in *. simpl.
  rewrite He. destruct e; try discriminate. simpl. now split.
Qed.

(** An iteration that ends normally has made exactly one run. *)
Lemma body_count (uh : bool) (st st' : state) (entry : string) (t : list event) :
  body a w uh st entry = (t, Ok st') -> count_runs t = 1.
Proof.
  unfold body. intros H.
  apply bind_ok_inv in H as (t1 & [[version out] ec] & t2 & Hr & H & ->).
  destruct (run_entry_trace a w uh entry t1 _ Hr) as (cmd & _ & _ & ->).
  rewrite count_runs_app, run_events_count.
  destruct (compare a); simpl negb in H; cbv iota in H.
  - apply bind_ok_inv in H as (t3 & out' & t4 & Hn & H & ->).
    pose proof (silent_normalize uh version out) as Hs.
    unfold silent in Hs. rewrite Hn in Hs. simpl in Hs. subst t3.
    pose proof (report_prints uh entry version out' ec st) as Hp.
    rewrite H in Hp. simpl in Hp |- *.
    now rewrite (proj1 (prints_count t4 Hp)).
  - simpl in H. injection H as <- _. reflexivity.
Qed.

Lemma for_each_count (uh : bool) (entries : list string) (st st' : state)
      (t : list event) :
  for_each (body a w uh) entries st = (t, Ok st') ->
  count_runs t = length entries.
Proof.
  revert st t. induction entries as [|e entries IH]; intros st t H.
  - simpl in H. injection H as <- _. reflexivity.
  - simpl in H. apply bind_ok_inv in H as (t1 & st1 & t2 & Hb & H & ->).
    rewrite count_runs_app, (body_count uh st st1 e t1 Hb), (IH st1 t2 H).
    reflexivity.
Qed.

Lemma analyze_count (uh : bool) (entries : list string) (t : list event) :
  analyze a w uh entries = (t, Ok tt) ->
  count_runs t = length entries.
Proof.
  unfold analyze. intros H.
  apply bind_ok_inv in H as (t1 & st & t2 & Hl & H & ->).
  rewrite count_runs_app, (for_each_count uh entries _ st t1 Hl).
  destruct (compare a); simpl in H; injection H as <-;
    unfold count_runs; simpl; lia.
Qed.

(** X6.  An analysis that ends normally has run every entry exactly once:
    its events contain as many waits on a run as there are entries, in
    either mode, whatever the runs returned and whether or not they timed
    out. *)
Theorem one_run_per_entry (uh : bool) (entries : list string) (t : list event) :
  analyze a w uh entries = (t, Ok tt) ->
  count_runs t = length entries.
Proof.
  unfold analyze. intros H.
  apply bind_ok_inv in H as (t1 & st & t2 & Hloop & Hflush & ->).
  rewrite count_runs_app, (for_each_count uh entries _ st t1 Hloop).
  destruct (compare a); simpl in Hflush; injection Hflush as <-;
    unfold count_runs; simpl; lia.
Qed.

Lemma build_cmd_raises (exe s : string) :
  Version s = None ->
  build_cmd a exe s = ([], Uncaught (InvalidVersion s)).
Proof.
  intros Hs. unfold build_cmd, add_if, and_then, version_ge, mkVersion.
  rewrite Hs.
  destruct (compare a), (debug a), (debug_warnings a), (check_library a);
    reflexivity.
Qed.

Lemma get_version_trace (uh : bool) (entry : string) :
  get_version w uh (Py.path_join (Py.path_join (dir a) entry) "cppcheck") entry
  = ((if uh
      then [Popen (Py.split (Py.path_join (Py.path_join (dir a) entry) "cppcheck"
                             ++ " " ++ "--version")) None; ReadStdout]
      else []),
     Ok (entry_version a w uh entry)).
Proof. unfold get_version, entry_version. now destruct uh. Qed.

Lemma body_raises (uh : bool) (st : state) (entry : string) :
  Version (entry_version a w uh entry) = None ->
  body a w uh st entry
  = ((if uh
      then [Popen (Py.split (Py.path_join (Py.path_join (dir a) entry) "cppcheck"
                             ++ " " ++ "--version")) None; ReadStdout]
      else []),
     Uncaught (InvalidVersion (entry_version a w uh entry))).
Proof.
  intros Hv. unfold body, run_entry.
  rewrite get_version_trace, bind_ok, (build_cmd_raises _ _ Hv).
  simpl. now rewrite app_nil_r.
Qed.

(** X4.  An entry whose version string is no version aborts the analysis:
    after the entries before it have been processed and, in commit mode, its
    binary has been asked for its version, [InvalidVersion] is raised; the
    entry itself is not run, the entries after it are not touched and the
    trailing result of compare mode is not printed. *)
Theorem unparsable_version_aborts (uh : bool) (before after : list string)
        (entry : string) (t : list event) (st : state) :
  for_each (body a w uh) before (None, None) = (t, Ok st) ->
  Version (entry_version a w uh entry) = None ->
  analyze a w uh (before ++ entry :: after)
  = ((t ++ if uh
           then [Popen (Py.split (Py.path_join (Py.path_join (dir a) entry) "cppcheck"
                                  ++ " " ++ "--version")) None; ReadStdout]
           else [])%list,
     Uncaught (InvalidVersion (entry_version a w uh entry)))
  /\ count_runs (fst (analyze a w uh (before ++ entry :: after))) = length before.
Proof.
  intros Hb Hv.
  assert (H : analyze a w uh (before ++ entry :: after)
              = ((t ++ if uh
                       then [Popen (Py.split (Py.path_join (Py.path_join (dir a) entry) "cppcheck"
                                              ++ " " ++ "--version")) None; ReadStdout]
                       else [])%list,
                 Uncaught (InvalidVersion (entry_version a w uh entry)))).
  { unfold analyze. rewrite for_each_app, Hb, bind_ok. simpl for_each.
    rewrite (body_raises uh st entry Hv). reflexivity. }
  split; [exact H|].
  rewrite H. simpl fst.
  rewrite count_runs_app, (for_each_count uh before _ st t Hb).
  destruct uh; unfold count_runs; simpl; lia.
Qed.

End Counting.

(** ** Further properties: the script as a whole *)

Section WholeScript.

Context {L : VersionLib} {HL : VersionLaws L}.

Variable a : Args.
Variable w : World.

Lemma some_unparsable_true (versions : list string) :
  some_unparsable versions = true ->
  exists s, In s versions /\ Version s = None.
Proof.
  unfold some_unparsable. rewrite existsb_exists.
  intros (s & Hin & Hs). exists s. split; [assumption|].
  now destruct (Version s).
Qed.

Lemma some_unparsable_false (versions : list string) :
  some_unparsable versions = false ->
  forall s, In s versions -> Version s <> None.
Proof.
  unfold some_unparsable. intros H s Hin Hs.
  assert (Ht : existsb (fun s => match Version s with Some _ => false | None => true end)
                       versions = true).
  { apply existsb_exists. exists s. now rewrite Hs. }
  congruence.
Qed.

Lemma order_as_hashes_mode (versions vs : list string) (uh : bool)
      (t : list event) :
  order_as_hashes a w versions = (t, Ok (uh, vs)) -> uh = true.
Proof.
  unfold order_as_hashes. intros H.
  apply bind_ok_inv in H as (t1 & [] & t1' & _ & H & ->).
  apply bind_ok_inv in H as (t2 & [] & t2' & _ & H & ->).
  apply bind_ok_inv in H as (t3 & [] & t3' & _ & H & ->).
  apply bind_ok_inv in H as (t4 & lines & t4' & _ & H & ->).
  apply bind_ok_inv in H as (t5 & [] & t5' & _ & H & ->).
  now injection H as _ <- _.
Qed.

(** X13.  The mode is decided by all directory names, not by the first one
    alone: whenever the enumerator returns, it has chosen commit mode
    exactly when some name is no version (also when the first name is
    one), and version mode exactly when every name parses. *)
Theorem mode_decided_by_all_names (versions vs : list string) (uh : bool) :
  versions <> [] ->
  snd (order_versions a w versions) = Ok (uh, vs) ->
  uh = some_unparsable versions.
Proof.
  intros Hne Hok. destruct (some_unparsable versions) eqn:Hu.
  - rewrite (order_versions_hashes a w versions (some_unparsable_true _ Hu)) in Hok.
    destruct (order_as_hashes a w versions) as [t r] eqn:E. simpl in Hok. subst r.
    exact (order_as_hashes_mode versions vs uh t E).
  - destruct (order_as_versions_ok versions Hne (some_unparsable_false _ Hu))
      as (ks & _ & _ & _ & Hord).
    unfold order_versions in Hok. rewrite Hord in Hok. simpl in Hok.
    now injection Hok as <- _.
Qed.

Lemma sorted_names_parse (versions : list string) (ks : list (Ver * string)) :
  (forall s, In s versions -> Version s <> None) ->
  map snd ks = versions ->
  forall e, In e (map snd (sort_keyed ks)) ->
            Version (entry_version a w false e) <> None.
Proof.
  intros Hall Hmap e Hin. simpl. apply Hall. rewrite <- Hmap.
  eapply Permutation_in; [|exact Hin].
  apply Permutation_map, Permutation_sym, sort_keyed_perm.
Qed.

(** X3.  When the flags are consistent and every sub-directory name parses
    as a version (there being at least one), the script does not end in
    [sys.exit] and no version string fails to parse: the sort has parsed
    every name, and the thresholds and the guard parse them again; and
    if the script ends normally, it has run every sub-directory exactly
    once. *)
Theorem version_mode_never_invalid :
  bad_flags a = false -> no_versions a w = false -> commit_mode a w = false ->
  (forall c, snd (main a w) <> SysExit c)
  /\ (forall s, snd (main a w) <> Uncaught (InvalidVersion s))
  /\ (forall t, main a w = (t, Ok tt) ->
                count_runs t = length (list_versions a w)).
Proof.
  intros Hb Hn Hm.
  assert (Hne : list_versions a w <> []).
  { unfold no_versions in Hn. destruct (list_versions a w); [discriminate | congruence]. }
  destruct (order_as_versions_ok _ Hne (commit_mode_false a w Hm))
    as (ks & _ & Hmap & _ & Hord).
  assert (Ho : order_versions a w (list_versions a w)
               = ([], Ok (false, map snd (sort_keyed ks)))).
  { unfold order_versions. now rewrite Hord. }
  destruct (analyze_succeeds (HL := HL) a w false (map snd (sort_keyed ks))
              (sorted_names_parse _ ks (commit_mode_false a w Hm) Hmap))
    as [t Ht].
  assert (Hlen : length (map snd (sort_keyed ks)) = length (list_versions a w)).
  { rewrite <- Hmap. apply Permutation_length, Permutation_map, Permutation_sym,
      sort_keyed_perm. }
  pose proof (analyze_count a w false _ t Ht) as Hcount.
  assert (Hmain : snd (main a w) = Ok tt
                  /\ count_runs (fst (main a w)) = length (list_versions a w)).
  { rewrite (main_after_checks a w Hb Hn), Ho.
    destruct (verbose a); simpl; rewrite Ht; simpl;
      (split; [reflexivity|]);
      unfold count_runs in *; simpl;
      rewrite ?filter_app, ?length_app; simpl; lia. }
  destruct Hmain as [Hok Hruns].
  split; [|split].
  - intros c Hc. rewrite Hok in Hc. discriminate.
  - intros s Hs. rewrite Hok in Hs. discriminate.
  - intros t' Ht'. rewrite Ht' in Hruns. exact Hruns.
Qed.

Lemma main_exit_trace (t : list event) (c : Z) :
  bad_flags a = false -> no_versions a w = false ->
  order_versions a w (list_versions a w) = (t, SysExit c) ->
  main a w
  = (((if verbose a
       then [Print ("found " ++ Py.str_int (Z.of_nat (length (list_versions a w)))
                    ++ " versions in '" ++ dir a ++ "'")]
       else []) ++ t)%list,
     SysExit c).
Proof.
  intros Hb Hn Ho. rewrite (main_after_checks a w Hb Hn), Ho.
  now destruct (verbose a).
Qed.

(** X5.  When the script ends in [sys.exit], no binary has been run or
    asked for its version: every event is a printed line or belongs to the
    one git query. *)
Theorem no_run_before_exit (c : Z) :
  snd (main a w) = SysExit c ->
  count_runs (fst (main a w)) = 0
  /\ forall e, In e (fst (main a w)) ->
               is_print e = true
               \/ e = Popen (Py.split (git_cmd (submitted a w))) (repo a)
               \/ e = Communicate.
Proof.
  destruct (bad_flags a) eqn:Hb.
  { assert (Hm : main a w = ([Print "error: --compact requires --compare"], SysExit 1)).
    { unfold bad_flags in Hb. unfold main.
      destruct (compact a), (compare a); try discriminate. reflexivity. }
    rewrite Hm. intros _. split; [reflexivity|].
    intros e [<-|[]]. now left. }
  destruct (no_versions a w) eqn:Hn.
  { assert (Hm : main a w
                 = ([Print ("error: no versions found in '" ++ dir a ++ "'")],
                    SysExit 1)).
    { unfold bad_flags in Hb. unfold no_versions in Hn. unfold main.
      cbv zeta. rewrite Hn.
      destruct (compact a), (compare a); try discriminate; reflexivity. }
    rewrite Hm. intros _. split; [reflexivity|].
    intros e [<-|[]]. now left. }
  destruct (commit_mode a w) eqn:Hm.
  - pose proof (order_versions_hashes a w _ (commit_mode_true a w Hm)) as Ho.
    rewrite (order_as_hashes_outcome a w Hn) in Ho.
    destruct (no_repo a); [|destruct (git_failed a w); [|destruct (count_mismatch a w)]].
    1-3: rewrite (main_exit_trace _ _ Hb Hn Ho); intros _;
      unfold git_preamble, hash_preamble, count_runs;
      destruct (verbose a); simpl; (split; [reflexivity|]);
      intros e He; intuition (subst; auto).
    intros Hc. now destruct (main_goes_on a w _ _ Hb Hn Ho c).
  - assert (Hne : list_versions a w <> []).
    { unfold no_versions in Hn. destruct (list_versions a w); [discriminate | congruence]. }
    destruct (order_as_versions_ok _ Hne (commit_mode_false a w Hm))
      as (ks & _ & _ & _ & Hord).
    assert (Ho : order_versions a w (list_versions a w)
                 = ([], Ok (false, map snd (sort_keyed ks)))).
    { unfold order_versions. now rewrite Hord. }
    intros Hc. now destruct (main_goes_on a w _ _ Hb Hn Ho c).
Qed.

(** X11.  When the only sub-directory is the checkout [cppcheck] and git
    answers the query for no commit at all with status 0 and no line,
    compare mode processes nothing and prints [None] twice: there is no
    retained result. *)
Theorem only_checkout_prints_none (out err : string) :
  list_versions a w = ["cppcheck"] ->
  Version "cppcheck" = None ->
  truthy (repo a) = true ->
  compare a = true -> verbose a = false ->
  git_rev_list w (Py.split (git_cmd [])) (repo a) = (0%Z, out, err) ->
  Py.splitlines out = [] ->
  main a w
  = ([Popen (Py.split (git_cmd [])) (repo a); Communicate;
      Print "None"; Print "None"], Ok tt).
Proof.
  intros Hl Hv Hrepo Hc Hverb Hgit Hlines.
  assert (Hb : bad_flags a = false).
  { unfold bad_flags. rewrite Hc. apply andb_false_r. }
  assert (Hn : no_versions a w = false).
  { unfold no_versions. now rewrite Hl. }
  rewrite (main_after_checks a w Hb Hn), Hl, Hverb.
  rewrite (order_versions_hashes a w ["cppcheck"]) by (exists "cppcheck"; simpl; auto).
  unfold order_as_hashes, sort_commit_hashes. rewrite Hverb, Hrepo.
  change (existsb (String.eqb "cppcheck") ["cppcheck"]) with true.
  cbv iota. change (remove_first "cppcheck" ["cppcheck"]) with (@nil string).
  cbv zeta. rewrite Hgit. cbv iota beta.
  unfold analyze. rewrite Hlines, Hc. reflexivity.
Qed.

End WholeScript.

(** ** Further properties: the git command and the reported version *)

Section Commands.

Context {L : VersionLib}.

Variable a : Args.
Variable w : World.

Lemma flush_word (s : string) : Py.is_empty s = false -> Py.flush s = [s].
Proof. unfold Py.flush. now intros ->. Qed.

Lemma split_go_no_space (s tok : string) :
  no_space s = true -> Py.split_go tok s = Py.flush (tok ++ s).
Proof.
  revert tok. induction s as [|c s IH]; intros tok Hs; simpl.
  - now rewrite str_app_nil_r.
  - simpl in Hs. apply andb_true_iff in Hs as [Hc Hs].
    apply negb_true_iff in Hc. rewrite Hc, (IH _ Hs).
    unfold Py.snoc. now rewrite str_app_assoc.
Qed.

Lemma split_word (s : string) : word s = true -> Py.split s = [s].
Proof.
  unfold word, Py.split. intros H. apply andb_true_iff in H as [Hne Hs].
  rewrite (split_go_no_space s "" Hs). simpl.
  apply flush_word. now apply negb_true_iff in Hne.
Qed.

Lemma split_join_words (l : list string) :
  forallb word l = true -> Py.split (Py.join " " l) = l.
Proof.
  induction l as [|x l IH]; intros H; [reflexivity|].
  simpl in H. apply andb_true_iff in H as [Hx Hl].
  destruct l as [|y l].
  - simpl. now apply split_word.
  - change (Py.join " " (x :: y :: l)) with (x ++ String " " (Py.join " " (y :: l))).
    unfold Py.split. rewrite split_go_app_space by reflexivity.
    fold (Py.split x). fold (Py.split (Py.join " " (y :: l))).
    now rewrite (split_word x Hx), (IH Hl).
Qed.

(** X7.  For names that are non-empty and free of white space, git is
    started with exactly these arguments: the fixed options and then the
    names, one argument each, in the order given. *)
Theorem git_arguments (commits : list string) :
  forallb word commits = true ->
  Py.split (git_cmd commits)
  = (["git"; "rev-list"; "--abbrev-commit"; "--topo-order";
      "--no-walk=sorted"; "--reverse"] ++ commits)%list
  /\ exists rest,
      fst (sort_commit_hashes a w commits)
      = Popen (["git"; "rev-list"; "--abbrev-commit"; "--topo-order";
                "--no-walk=sorted"; "--reverse"] ++ commits)%list (repo a)
        :: Communicate :: rest.
Proof.
  intros Hw.
  assert (Hs : Py.split (git_cmd commits)
               = (["git"; "rev-list"; "--abbrev-commit"; "--topo-order";
                   "--no-walk=sorted"; "--reverse"] ++ commits)%list).
  { unfold git_cmd.
    change "git rev-list --abbrev-commit --topo-order --no-walk=sorted --reverse "
      with ("git rev-list --abbrev-commit --topo-order --no-walk=sorted --reverse" ++ " ").
    rewrite (closed_space "git rev-list --abbrev-commit --topo-order --no-walk=sorted --reverse"
                          (Py.join " " commits)).
    now rewrite (split_join_words commits Hw). }
  split; [exact Hs|].
  unfold sort_commit_hashes. cbv zeta. rewrite Hs.
  destruct (git_rev_list w _ (repo a)) as [[rc out] err].
  destruct (rc =? 0)%Z; simpl; eexists; reflexivity.
Qed.

Lemma rstrip_no_space (s : string) : no_space s = true -> Py.rstrip s = s.
Proof.
  induction s as [|c s IH]; [reflexivity|].
  simpl. intros H. apply andb_true_iff in H as [Hc Hs].
  apply negb_true_iff in Hc. now rewrite (IH Hs), Hc, andb_false_r.
Qed.

Lemma rstrip_app_word (x s : string) :
  word s = true -> Py.rstrip (x ++ s) = x ++ s.
Proof.
  intros Hw. pose proof Hw as Hw'. unfold word in Hw'.
  apply andb_true_iff in Hw' as [Hne Hs].
  induction x as [|d x IH]; simpl.
  - now apply rstrip_no_space.
  - rewrite IH.
    assert (He : Py.is_empty (x ++ s) = false).
    { destruct x; simpl; [now apply negb_true_iff in Hne | reflexivity]. }
    now rewrite He.
Qed.

Lemma rstrip_app_space (x : string) (c : ascii) :
  Py.isspace c = true -> Py.rstrip (x ++ String c "") = Py.rstrip x.
Proof.
  intros Hc. induction x as [|d x IH]; simpl.
  - now rewrite Hc.
  - now rewrite IH.
Qed.

Lemma no_space_lacks_blank (s : string) : no_space s = true -> lacks " " s = true.
Proof.
  induction s as [|c s IH]; [reflexivity|].
  simpl. intros H. apply andb_true_iff in H as [Hc Hs].
  rewrite (IH Hs), andb_true_r.
  destruct (Ascii.eqb_spec c " ") as [->|]; [discriminate | reflexivity].
Qed.

Lemma prefix_first (c d : ascii) (p s : string) :
  Ascii.eqb d c = false -> String.prefix (String c p) (String d s) = false.
Proof.
  intros H. simpl. destruct (ascii_dec c d) as [->|]; [|reflexivity].
  now rewrite Ascii.eqb_refl in H.
Qed.

(** Where the first character of [old] does not occur, nothing is
    replaced. *)
Lemma replace_go_lacks (c : ascii) (p new v rest : string) :
  lacks c v = true ->
  Py.replace_go (String c p) new 0 (v ++ rest)
  = v ++ Py.replace_go (String c p) new 0 rest.
Proof.
  induction v as [|d v IH]; [reflexivity|].
  intros H. simpl in H. apply andb_true_iff in H as [Hd Hv].
  apply negb_true_iff in Hd.
  change ((String d v) ++ rest) with (String d (v ++ rest)).
  cbn [Py.replace_go]. rewrite (prefix_first c d p (v ++ rest) Hd).
  now rewrite (IH Hv).
Qed.

Lemma replace_go_match (old new r : string) (c : ascii) :
  String.prefix old (String c r) = true ->
  Py.replace_go old new 0 (String c r)
  = new ++ Py.replace_go old new (String.length old - 1) r.
Proof. intros H. cbn [Py.replace_go]. now rewrite H. Qed.

(** X8.  In commit mode, when a binary answers the version query with
    [Cppcheck], a blank, a version text and possibly [ dev], followed by a
    newline, the version string used for the thresholds is the version
    text; this for every text that is non-empty, free of white space and
    of capital C. *)
Theorem reported_version_sanitized (entry v suffix : string) :
  word v = true -> lacks "C" v = true ->
  suffix = "" \/ suffix = " dev" ->
  cppcheck_version w
    (Py.split (Py.path_join (Py.path_join (dir a) entry) "cppcheck"
               ++ " " ++ "--version"))
  = "Cppcheck " ++ v ++ suffix ++ Py.nl ->
  entry_version a w true entry = v
  /\ snd (get_version w true
            (Py.path_join (Py.path_join (dir a) entry) "cppcheck") entry)
     = Ok v.
Proof.
  intros Hw Hc Hsuf Hout.
  assert (Hns : no_space v = true).
  { unfold word in Hw. now apply andb_true_iff in Hw as [_ ?]. }
  assert (Hstrip : Py.strip ("Cppcheck " ++ v ++ suffix ++ Py.nl)
                   = "Cppcheck " ++ v ++ suffix).
  { unfold Py.strip.
    change (Py.lstrip ("Cppcheck " ++ v ++ suffix ++ Py.nl))
      with ("Cppcheck " ++ v ++ suffix ++ Py.nl).
    replace ("Cppcheck " ++ v ++ suffix ++ Py.nl)
      with (("Cppcheck " ++ v ++ suffix) ++ String Py.lf "")
      by (now rewrite !str_app_assoc).
    rewrite rstrip_app_space by reflexivity.
    destruct Hsuf as [-> | ->].
    - rewrite str_app_nil_r. now apply rstrip_app_word.
    - replace ("Cppcheck " ++ v ++ " dev") with (("Cppcheck " ++ v ++ " ") ++ "dev")
        by (now rewrite !str_app_assoc).
      now apply rstrip_app_word. }
  assert (Hsan : Py.replace " dev" "" (Py.replace "Cppcheck " "" ("Cppcheck " ++ v ++ suffix))
                 = v).
  { assert (Hhead : Py.replace "Cppcheck " "" ("Cppcheck " ++ v ++ suffix)
                    = Py.replace_go "Cppcheck " "" 0 (v ++ suffix)).
    { unfold Py.replace.
      change ("Cppcheck " ++ v ++ suffix) with (String "C" ("ppcheck " ++ v ++ suffix)).
      rewrite replace_go_match by apply (prefix_app "Cppcheck " (v ++ suffix)).
      reflexivity. }
    rewrite Hhead.
    rewrite (replace_go_lacks "C" "ppcheck " "" v suffix Hc).
    unfold Py.replace.
    rewrite (replace_go_lacks " " "dev" "" v _ (no_space_lacks_blank v Hns)).
    destruct Hsuf as [-> | ->]; simpl; now rewrite !str_app_nil_r. }
  assert (He : entry_version a w true entry = v).
  { unfold entry_version. simpl negb. cbv iota zeta. now rewrite Hout, Hstrip. }
  split; [exact He|].
  rewrite (get_version_trace a w true entry). simpl snd. now rewrite He.
Qed.

End Commands.

(** ** Further properties: the order of listing, the flags that only print *)

Section ListingOrder.

Context {L : VersionLib} {HL : VersionLaws L}.

Lemma sorted_perm_unique (l l' : list string) :
  StronglySorted name_le l -> StronglySorted name_le l' ->
  Permutation l l' ->
  (forall x y, In x l -> In y l -> name_le x y -> name_le y x -> x = y) ->
  l = l'.
Proof.
  intros Hs. revert l'. induction Hs as [|x l Hs IH Hx]; intros l' Hs' Hp Hanti.
  - now apply Permutation_nil in Hp.
  - destruct Hs' as [|y l' Hs' Hy];
      [now apply Permutation_sym, Permutation_nil in Hp|].
    assert (Hxy : x = y).
    { assert (Hyin : In y (x :: l))
        by (eapply Permutation_in; [apply Permutation_sym, Hp | now left]).
      assert (Hxin : In x (y :: l'))
        by (eapply Permutation_in; [exact Hp | now left]).
      destruct Hyin as [E|Hyin]; [exact E|].
      destruct Hxin as [E|Hxin]; [now symmetry|].
      rewrite Forall_forall in Hx, Hy.
      apply Hanti; [now left | now right | now apply Hx | now apply Hy]. }
    subst y. f_equal. apply IH.
    + exact Hs'.
    + now apply Permutation_cons_inv in Hp.
    + intros u v Hu Hv. apply Hanti; now right.
Qed.

Lemma order_as_versions_sorted (versions : list string) :
  versions <> [] ->
  (forall s, In s versions -> Version s <> None) ->
  exists sorted,
    order_as_versions versions = ret (false, sorted)
    /\ Permutation versions sorted
    /\ StronglySorted name_le sorted.
Proof.
  intros Hne Hall.
  destruct (order_as_versions_ok versions Hne Hall)
    as (ks & _ & Hmap & Hkeyed & Hord).
  exists (map snd (sort_keyed ks)). split; [exact Hord|]. split.
  - rewrite <- Hmap at 1. apply Permutation_map, sort_keyed_perm.
  - apply sorted_names; [|apply sort_keyed_sorted].
    eapply Permutation_Forall; [apply sort_keyed_perm | assumption].
Qed.

(** X10.  The processing order of version mode does not depend on the
    order in which the directory is listed: two listings of the same names,
    all of them versions and no two of them the same version, are ordered
    alike. *)
Theorem listing_order_irrelevant (a : Args) (w : World) (l1 l2 : list string) :
  l1 <> [] ->
  Permutation l1 l2 ->
  (forall s, In s l1 -> Version s <> None) ->
  (forall x y, In x l1 -> In y l1 -> same_version x y = true -> x = y) ->
  order_versions a w l1 = order_versions a w l2.
Proof.
  intros Hne Hp Hall Hdist.
  assert (Hne2 : l2 <> []).
  { intros ->. now apply Permutation_sym, Permutation_nil in Hp. }
  assert (Hall2 : forall s, In s l2 -> Version s <> None).
  { intros s Hs. apply Hall. eapply Permutation_in; [apply Permutation_sym, Hp | exact Hs]. }
  destruct (order_as_versions_sorted l1 Hne Hall) as (s1 & H1 & Hp1 & Hs1).
  destruct (order_as_versions_sorted l2 Hne2 Hall2) as (s2 & H2 & Hp2 & Hs2).
  unfold order_versions. rewrite H1, H2. simpl.
  do 3 f_equal. apply sorted_perm_unique; trivial.
  - now rewrite <- Hp1, Hp, Hp2.
  - intros x y Hx Hy Hxy Hyx.
    apply Hdist.
    + eapply Permutation_in; [apply Permutation_sym, Hp1 | exact Hx].
    + eapply Permutation_in; [apply Permutation_sym, Hp1 | exact Hy].
    + unfold same_version, name_le in *. now rewrite Hxy, Hyx.
Qed.

End ListingOrder.

Section PrintingFlags.

Context {L : VersionLib}.

Variable w : World.

Lemma procs_of_app (t t' : list event) :
  procs_of (t ++ t') = (procs_of t ++ procs_of t')%list.
Proof. unfold procs_of. apply filter_app. Qed.

Lemma same_runs_refl {A} (m : M A) : same_runs m m.
Proof. now split. Qed.

Lemma same_runs_bind {A B} (m1 m2 : M A) (f1 f2 : A -> M B) :
  same_runs m1 m2 -> (forall x, same_runs (f1 x) (f2 x)) ->
  same_runs (bind m1 f1) (bind m2 f2).
Proof.
  destruct m1 as [t1 r1], m2 as [t2 r2]. intros [Ht Hr] Hf. simpl in Ht, Hr.
  subst r2. destruct r1 as [x| |]; simpl; [|now split..].
  destruct (Hf x) as [Hft Hfr].
  destruct (f1 x) as [t1' r1'], (f2 x) as [t2' r2'].
  unfold same_runs, procs_of in *. simpl in *.
  split; [|assumption]. now rewrite !filter_app, Ht, Hft.
Qed.

Lemma same_runs_when_print (b1 b2 : bool) (s1 s2 : string) :
  same_runs (when b1 (print s1)) (when b2 (print s2)).
Proof. destruct b1, b2; now split. Qed.

Lemma same_runs_try {A} (m h1 h2 : M A) :
  same_runs h1 h2 -> same_runs (try_except m h1) (try_except m h2).
Proof.
  intros [Ht Hr]. destruct m as [t [x| |]]; simpl; [now split|..];
    destruct h1 as [t1 r1], h2 as [t2 r2]; unfold same_runs, procs_of in *;
    simpl in *; (split; [now rewrite !filter_app, Ht | assumption]).
Qed.

Lemma same_runs_report (a1 a2 : Args) (uh : bool) (entry version out : string)
      (ec : Z) (st : state) :
  same_runs (report a1 uh entry version ec out st)
            (report a2 uh entry version ec out st).
Proof.
  split.
  - now rewrite (proj2 (prints_count _ (report_prints a1 uh entry version out ec st))),
      (proj2 (prints_count _ (report_prints a2 uh entry version out ec st))).
  - destruct st as [[pec|] pout]; now rewrite ?report_next, ?report_first.
Qed.

Variable a : Args.
Variables v c : bool.

Lemma same_runs_run_entry (uh : bool) (entry : string) :
  same_runs (run_entry a w uh entry) (run_entry (with_flags v c a) w uh entry).
Proof.
  unfold run_entry. cbv zeta.
  change (dir (with_flags v c a)) with (dir a).
  apply same_runs_bind; [apply same_runs_refl | intros version].
  change (build_cmd (with_flags v c a)) with (build_cmd a).
  apply same_runs_bind; [apply same_runs_refl | intros cmd].
  apply same_runs_bind; [apply same_runs_when_print | intros _].
  change (execute (with_flags v c a)) with (execute a).
  apply same_runs_refl.
Qed.

Lemma same_runs_body (uh : bool) (st : state) (entry : string) :
  same_runs (body a w uh st entry) (body (with_flags v c a) w uh st entry).
Proof.
  unfold body.
  apply same_runs_bind; [apply same_runs_run_entry | intros [[version out] ec]].
  change (compare (with_flags v c a)) with (compare a).
  destruct (compare a); simpl negb; cbv iota; [|apply same_runs_refl].
  apply same_runs_bind; [apply same_runs_refl | intros out'].
  apply same_runs_report.
Qed.

Lemma same_runs_for_each (uh : bool) (entries : list string) (st : state) :
  same_runs (for_each (body a w uh) entries st)
            (for_each (body (with_flags v c a) w uh) entries st).
Proof.
  revert st. induction entries as [|e entries IH]; intros st; simpl.
  - apply same_runs_refl.
  - apply same_runs_bind; [apply same_runs_body | exact IH].
Qed.

Lemma same_runs_analyze (uh : bool) (entries : list string) :
  same_runs (analyze a w uh entries) (analyze (with_flags v c a) w uh entries).
Proof.
  unfold analyze.
  apply same_runs_bind; [apply same_runs_for_each | intros st].
  apply same_runs_refl.
Qed.

Lemma same_runs_order_as_hashes (versions : list string) :
  versions <> [] ->
  same_runs (order_as_hashes a w versions)
            (order_as_hashes (with_flags v c a) w versions).
Proof.
  intros Hne. destruct versions as [|v0 rest]; [congruence|].
  unfold order_as_hashes.
  change (repo (with_flags v c a)) with (repo a).
  change (sort_commit_hashes (with_flags v c a)) with (sort_commit_hashes a).
  apply same_runs_bind; [apply same_runs_when_print | intros _].
  apply same_runs_bind; [apply same_runs_refl | intros _].
  apply same_runs_bind; [apply same_runs_when_print | intros _].
  apply same_runs_refl.
Qed.

(** X9.  [--verbose] and, in compare mode, [--compact] change nothing but
    what is printed: the script starts the same processes with the same
    arguments in the same order, waits for and kills the same ones, and
    ends the same way. *)
Theorem flags_only_change_prints :
  compare a = true \/ c = compact a ->
  same_runs (main a w) (main (with_flags v c a) w).
Proof.
  intros Hflags. unfold main. cbv zeta.
  change (list_versions (with_flags v c a) w) with (list_versions a w).
  change (compare (with_flags v c a)) with (compare a).
  change (compact (with_flags v c a)) with c.
  change (verbose (with_flags v c a)) with v.
  change (dir (with_flags v c a)) with (dir a).
  change (infile (with_flags v c a)) with (infile a).
  apply same_runs_bind.
  { destruct Hflags as [Hc | ->]; [|apply same_runs_refl].
    rewrite Hc. destruct (compact a), c; apply same_runs_refl. }
  intros _.
  destruct (list_versions a w) as [|v0 rest] eqn:Hl; [apply same_runs_refl|].
  apply same_runs_bind; [apply same_runs_refl | intros _].
  apply same_runs_bind; [apply same_runs_when_print | intros _].
  apply same_runs_bind.
  { unfold order_versions. apply same_runs_try.
    apply same_runs_order_as_hashes. discriminate. }
  intros [uh vs].
  apply same_runs_bind; [apply same_runs_when_print | intros _].
  apply same_runs_bind; [apply same_runs_analyze | intros _].
  apply same_runs_when_print.
Qed.

End PrintingFlags.

(** ** Further properties: a steady output *)

Section Steady.

Context {L : VersionLib}.

Variable a : Args.
Variable w : World.

Lemma observe_quiet (uh : bool) (entry : string) (t : list event) (o : observed) :
  verbose a = false ->
  observe a w uh entry = (t, Ok o) -> stdout_of t = [].
Proof.
  intros Hv Ho.
  destruct (observe_inv a w uh entry t o Ho) as (t1 & t2 & out & Hr & Hn & -> & _).
  destruct (run_entry_trace a w uh entry t1 _ Hr) as (cmd & _ & _ & ->).
  pose proof (silent_normalize uh (o_version o) out) as Hs.
  unfold silent in Hs. rewrite Hn in Hs. simpl in Hs. subst t2.
  now rewrite app_nil_r, run_events_quiet.
Qed.

Lemma compact_rest_steady (uh : bool) (entries : list string)
      (runs : list (list event * observed)) (prev : observed) :
  verbose a = false ->
  Forall2 (fun e r => observe a w uh e = (fst r, Ok (snd r))) entries runs ->
  Forall (fun r => o_ec (snd r) = o_ec prev /\ o_out (snd r) = o_out prev) runs ->
  stdout_of (compact_rest a prev runs) = [Py.str_int (o_ec prev); o_out prev].
Proof.
  intros Hv Hruns. revert prev.
  induction Hruns as [|e [t o] entries runs Ho _ IH]; intros prev Hsame;
    [reflexivity|].
  inversion Hsame as [|? ? [Hec Hout] Hrest]; subst. simpl in Hec, Hout, Ho.
  assert (Hch : changed (o_ec prev) (Some (o_out prev)) o = false).
  { apply changed_false. split; congruence. }
  simpl compact_rest.
  rewrite Hch, (change_notes_none a _ _ _ Hch). simpl.
  rewrite stdout_of_app, (observe_quiet uh e t o Hv Ho). simpl.
  rewrite IH; [now rewrite Hec, Hout|].
  eapply Forall_impl; [|exact Hrest].
  intros r [H1 H2]. split; congruence.
Qed.

(** X12.  In compact compare mode outside verbose mode, when every run
    ends with the exit code and the output of the first one, the script
    prints three lines for the whole analysis: the label of the first
    version, the exit code and the output. *)
Theorem steady_output_prints_once (uh : bool) (e : string) (es : list string)
        (t : list event) (o : observed) (runs : list (list event * observed)) :
  compare a = true -> compact a = true -> verbose a = false ->
  Forall2 (fun e r => observe a w uh e = (fst r, Ok (snd r)))
          (e :: es) ((t, o) :: runs) ->
  Forall (fun r => o_ec (snd r) = o_ec o /\ o_out (snd r) = o_out o) runs ->
  stdout_of (fst (analyze a w uh (e :: es)))
  = [o_label o; Py.str_int (o_ec o); o_out o].
Proof.
  intros Hc Hk Hv Hruns Hsame.
  inversion Hruns as [|? ? ? ? Ho Hrest]; subst. simpl in Ho.
  unfold analyze. simpl for_each. rewrite bind_assoc.
  rewrite (body_first a w uh e None t o Hc Ho), bind_ok.
  rewrite (compact_loop a w uh es runs Hc Hk Hrest o).
  simpl fst. rewrite !stdout_of_app, (observe_quiet uh e t o Hv Ho).
  simpl. now rewrite (compact_rest_steady uh es runs o Hv Hrest Hsame).
Qed.

End Steady.

(** ** Further properties: timeouts in a row *)

Section Timeouts.

Context {L : VersionLib} {HL : VersionLaws L}.

Variable a : Args.
Variable w : World.

Lemma run_entry_timed_out (uh : bool) (entry cmd : string) (rc : Z) :
  build_cmd a (Py.path_join (Py.path_join (dir a) entry) "cppcheck")
            (entry_version a w uh entry) = ([], Ok cmd) ->
  cppcheck_run w (Py.split cmd) (Py.path_join (dir a) entry) (timeout a)
  = TimedOut rc ->
  run_entry a w uh entry
  = (run_events a w uh entry cmd, Ok (entry_version a w uh entry, "timeout", rc)).
Proof.
  intros Hcmd Hrun. unfold run_entry, run_events. cbv zeta.
  rewrite get_version_trace, bind_ok, Hcmd, (bind_ret_l cmd).
  unfold execute. rewrite Hrun.
  destruct uh, (verbose a); reflexivity.
Qed.

(** X14.  In compare mode a run that times out, after a retained result
    that was a timeout with the same exit code, is no change: the iteration
    prints neither the retained exit code nor the retained output (only
    the label, and not even that with [--compact]), and the timeout stays
    the retained result. *)
Theorem timeouts_in_a_row (uh : bool) (entry cmd : string) (v : Ver) (rc : Z) :
  compare a = true ->
  Version (entry_version a w uh entry) = Some v ->
  build_cmd a (Py.path_join (Py.path_join (dir a) entry) "cppcheck")
            (entry_version a w uh entry) = ([], Ok cmd) ->
  cppcheck_run w (Py.split cmd) (Py.path_join (dir a) entry) (timeout a)
  = TimedOut rc ->
  body a w uh (Some rc, Some "timeout") entry
  = ((run_events a w uh entry cmd
      ++ (if compact a then []
          else [Print (label uh entry (entry_version a w uh entry))]))%list,
     Ok (Some rc, Some "timeout")).
Proof.
  intros Hc Hv Hcmd Hrun.
  assert (Ho : observe a w uh entry
               = (run_events a w uh entry cmd,
                  Ok {| o_version := entry_version a w uh entry;
                        o_label := label uh entry (entry_version a w uh entry);
                        o_ec := rc; o_out := "timeout" |})).
  { unfold observe.
    rewrite (run_entry_timed_out uh entry cmd rc Hcmd Hrun), bind_ok.
    rewrite (normalize_parsed uh _ "timeout" v Hv).
    destruct uh; simpl; now rewrite app_nil_r. }
  rewrite (body_next a w uh entry rc (Some "timeout") _ _ Hc Ho).
  assert (Hch : changed rc (Some "timeout")
                        {| o_version := entry_version a w uh entry;
                           o_label := label uh entry (entry_version a w uh entry);
                           o_ec := rc; o_out := "timeout" |} = false).
  { apply changed_false. now split. }
  rewrite Hch, (change_notes_none a _ _ _ Hch). simpl.
  now destruct (compact a).
Qed.

End Timeouts.

(** ** The further properties on the demo folders *)

Section MoreRuns.

Import Dotted.

Lemma dump_mode_witness :
  compare Demo.plain = false
  /\ Forall2 (fun e r => run_entry Demo.plain Demo.hangs false e
                         = (fst r, Ok (snd r)))
             ["1.50"; "1.60"]
             [([Popen ["builds/1.50/cppcheck"; "--enable=all"; "--inline-suppr";
                       "--suppress=missingInclude";
                       "--suppress=missingIncludeSystem";
                       "--suppress=unmatchedSuppression";
                       "--suppress=unusedFunction"; "--inconclusive"; "x.c"]
                      (Some "builds/1.50");
                CommunicateT 2; Kill; Communicate],
               ("1.50", "timeout", (-9)%Z));
              ([Popen ["builds/1.60/cppcheck"; "--enable=all"; "--inline-suppr";
                       "--suppress=missingInclude";
                       "--suppress=missingIncludeSystem";
                       "--suppress=unmatchedSuppression";
                       "--suppress=unusedFunction"; "--inconclusive"; "x.c"]
                      (Some "builds/1.60");
                CommunicateT 2],
               ("1.60", Py.nl, 0%Z))]
  /\ stdout_of (fst (analyze Demo.plain Demo.hangs false ["1.50"; "1.60"]))
     = ["1.50"; "-9"; "timeout"; "1.60"; "0"; Py.nl].
Proof.
  split; [reflexivity|].
  match goal with |- ?H /\ _ => assert (Hruns : H) by (repeat constructor) end.
  split; [exact Hruns|].
  destruct (dump_mode_report (L := lib) Demo.plain Demo.hangs false _ _
              eq_refl Hruns) as (_ & Hout & _).
  rewrite (Hout eq_refl). reflexivity.
Defined.

Lemma compare_mode_witness :
  compare Demo.comparing = true
  /\ Forall2 (fun e r => observe Demo.comparing Demo.releases false e
                         = (fst r, Ok (snd r)))
             ["1.38"; "1.38"; "1.39"]
             [([Popen ["builds/1.38/cppcheck"; "-q"; "x.c"] (Some "builds/1.38");
                CommunicateT 2],
               {| o_version := "1.38"; o_label := "1.38"; o_ec := 0%Z;
                  o_out := "" |});
              ([Popen ["builds/1.38/cppcheck"; "-q"; "x.c"] (Some "builds/1.38");
                CommunicateT 2],
               {| o_version := "1.38"; o_label := "1.38"; o_ec := 0%Z;
                  o_out := "" |});
              ([Popen ["builds/1.39/cppcheck"; "-q"; "--enable=all"; "x.c"]
                      (Some "builds/1.39"); CommunicateT 2],
               {| o_version := "1.39"; o_label := "1.39"; o_ec := 0%Z;
                  o_out := Demo.warning |})]
  /\ stdout_of (fst (analyze Demo.comparing Demo.releases false
                             ["1.38"; "1.38"; "1.39"]))
     = ["1.38"; "1.38"; "0"; ""; "1.39"; "0"; Demo.warning].
Proof.
  split; [reflexivity|].
  match goal with |- ?H /\ _ => assert (Hruns : H) by (repeat constructor) end.
  split; [exact Hruns|].
  destruct (compare_mode_report (L := lib) Demo.comparing Demo.releases false
              _ _ eq_refl Hruns) as [H _].
  rewrite H. reflexivity.
Defined.

Lemma version_mode_witness :
  bad_flags Demo.comparing = false
  /\ no_versions Demo.comparing Demo.releases = false
  /\ commit_mode Demo.comparing Demo.releases = false
  /\ (forall s, snd (main Demo.comparing Demo.releases)
                <> Uncaught (InvalidVersion s))
  /\ count_runs (fst (main Demo.comparing Demo.releases)) = 2.
Proof.
  split; [reflexivity|]. split; [reflexivity|]. split; [reflexivity|].
  destruct (version_mode_never_invalid (HL := dotted_laws) Demo.comparing
              Demo.releases eq_refl eq_refl eq_refl) as (_ & Hinv & Hcount).
  split; [exact Hinv|].
  exact (Hcount (fst (main Demo.comparing Demo.releases)) eq_refl).
Defined.

Lemma abort_witness :
  for_each (body Demo.plain Demo.releases false) ["1.38"] (None, None)
  = ([Popen ["builds/1.38/cppcheck"; "x.c"] (Some "builds/1.38");
      CommunicateT 2; Print "1.38"; Print "0"; Print Py.nl],
     Ok (None, None))
  /\ Version (entry_version Demo.plain Demo.releases false "notes.txt") = None
  /\ snd (analyze Demo.plain Demo.releases false ["1.38"; "notes.txt"; "1.39"])
     = Uncaught (InvalidVersion "notes.txt")
  /\ count_runs (fst (analyze Demo.plain Demo.releases false
                              ["1.38"; "notes.txt"; "1.39"])) = 1.
Proof.
  split; [reflexivity|]. split; [reflexivity|].
  destruct (unparsable_version_aborts (L := lib) Demo.plain Demo.releases false
              ["1.38"] ["1.39"] "notes.txt"
              [Popen ["builds/1.38/cppcheck"; "x.c"] (Some "builds/1.38");
               CommunicateT 2; Print "1.38"; Print "0"; Print Py.nl]
              (None, None) eq_refl eq_refl) as [H1 H2].
  split; [exact (f_equal snd H1) | exact H2].
Defined.

Lemma exit_witness :
  snd (main (Demo.comparing_repo false false) Demo.commits_git_fails) = SysExit 1
  /\ count_runs (fst (main (Demo.comparing_repo false false)
                           Demo.commits_git_fails)) = 0.
Proof.
  split; [reflexivity|].
  exact (proj1 (no_run_before_exit (L := lib)
                  (Demo.comparing_repo false false) Demo.commits_git_fails 1
                  eq_refl)).
Defined.

Lemma one_run_witness :
  analyze Demo.comparing Demo.hangs false ["1.50"; "1.60"]
  = (fst (analyze Demo.comparing Demo.hangs false ["1.50"; "1.60"]), Ok tt)
  /\ count_runs (fst (analyze Demo.comparing Demo.hangs false ["1.50"; "1.60"]))
     = 2.
Proof.
  split; [reflexivity|].
  exact (one_run_per_entry (L := lib) Demo.comparing Demo.hangs false ["1.50"; "1.60"]
           (fst (analyze Demo.comparing Demo.hangs false ["1.50"; "1.60"]))
           eq_refl).
Defined.

Lemma git_arguments_witness :
  forallb word ["b2c3d4e"; "a1b2c3d"] = true
  /\ Py.split (git_cmd ["b2c3d4e"; "a1b2c3d"])
     = ["git"; "rev-list"; "--abbrev-commit"; "--topo-order";
        "--no-walk=sorted"; "--reverse"; "b2c3d4e"; "a1b2c3d"].
Proof.
  split; [reflexivity|].
  exact (proj1 (git_arguments (Demo.comparing_repo false false) Demo.commits
                  ["b2c3d4e"; "a1b2c3d"] eq_refl)).
Defined.

Lemma sanitized_witness :
  word "2.13" = true /\ lacks "C" "2.13" = true
  /\ cppcheck_version Demo.commits
       (Py.split ("builds/a1b2c3d/cppcheck" ++ " " ++ "--version"))
     = "Cppcheck " ++ "2.13" ++ " dev" ++ Py.nl
  /\ entry_version (Demo.comparing_repo false false) Demo.commits true "a1b2c3d"
     = "2.13".
Proof.
  split; [reflexivity|]. split; [reflexivity|]. split; [reflexivity|].
  exact (proj1 (reported_version_sanitized (Demo.comparing_repo false false)
                  Demo.commits "a1b2c3d" "2.13" " dev" eq_refl eq_refl
                  (or_intror eq_refl) eq_refl)).
Defined.

Lemma printing_flags_witness :
  compare Demo.comparing = true
  /\ same_runs (main Demo.comparing Demo.releases)
               (main (with_flags true true Demo.comparing) Demo.releases).
Proof.
  split; [reflexivity|].
  exact (flags_only_change_prints (L := lib) Demo.releases Demo.comparing true true
           (or_introl eq_refl)).
Defined.

Lemma listing_order_witness :
  ["1.10"; "1.9"; "1.38"] <> []
  /\ Permutation ["1.10"; "1.9"; "1.38"] ["1.38"; "1.10"; "1.9"]
  /\ order_versions Demo.plain Demo.releases ["1.10"; "1.9"; "1.38"]
     = order_versions Demo.plain Demo.releases ["1.38"; "1.10"; "1.9"].
Proof.
  assert (Hne : ["1.10"; "1.9"; "1.38"] <> []) by discriminate.
  assert (Hp : Permutation ["1.10"; "1.9"; "1.38"] ["1.38"; "1.10"; "1.9"]).
  { apply Permutation_sym. apply (Permutation_cons_app ["1.10"; "1.9"] []).
    reflexivity. }
  assert (Hall : forall s, In s ["1.10"; "1.9"; "1.38"] -> Version s <> None).
  { intros s Hs. simpl in Hs.
    repeat (destruct Hs as [<- | Hs]; [vm_compute; discriminate|]).
    contradiction. }
  assert (Hdist : forall x y, In x ["1.10"; "1.9"; "1.38"] ->
                              In y ["1.10"; "1.9"; "1.38"] ->
                              same_version x y = true -> x = y).
  { intros x y Hx Hy. simpl in Hx, Hy.
    repeat (destruct Hx as [<- | Hx]; [|]); try contradiction;
      repeat (destruct Hy as [<- | Hy]; [|]); try contradiction;
      vm_compute; intros H; try reflexivity; discriminate. }
  split; [exact Hne|]. split; [exact Hp|].
  exact (listing_order_irrelevant (HL := dotted_laws) Demo.plain Demo.releases
           _ _ Hne Hp Hall Hdist).
Defined.

Lemma only_checkout_witness :
  list_versions (Demo.comparing_repo false false) DemoMore.only_checkout
  = ["cppcheck"]
  /\ Version "cppcheck" = None
  /\ stdout_of (fst (main (Demo.comparing_repo false false)
                          DemoMore.only_checkout))
     = ["None"; "None"].
Proof.
  split; [reflexivity|]. split; [reflexivity|].
  now rewrite (only_checkout_prints_none (L := lib) (Demo.comparing_repo false false)
                 DemoMore.only_checkout "" ""
                 eq_refl eq_refl eq_refl eq_refl eq_refl eq_refl eq_refl).
Defined.

Lemma steady_output_witness :
  compare Demo.compact_comparing = true
  /\ compact Demo.compact_comparing = true
  /\ verbose Demo.compact_comparing = false
  /\ stdout_of (fst (analyze Demo.compact_comparing Demo.releases false
                             ["1.38"; "1.38"; "1.38"]))
     = ["1.38"; "0"; ""].
Proof.
  split; [reflexivity|]. split; [reflexivity|]. split; [reflexivity|].
  pose (r38 := ([Popen ["builds/1.38/cppcheck"; "-q"; "x.c"] (Some "builds/1.38");
                  CommunicateT 2%Z],
                 {| o_version := "1.38"; o_label := "1.38"; o_ec := 0%Z;
                    o_out := "" |})).
  apply (steady_output_prints_once (L := lib) Demo.compact_comparing Demo.releases false
           "1.38" ["1.38"; "1.38"] (fst r38) (snd r38) [r38; r38]
           eq_refl eq_refl eq_refl).
  - repeat constructor.
  - repeat constructor.
Defined.

Lemma mode_witness :
  ["1.38"; "b2c3d4e"] <> []
  /\ snd (order_versions (Demo.comparing_repo false false) Demo.commits
                         ["1.38"; "b2c3d4e"])
     = Ok (true, ["a1b2c3d"; "b2c3d4e"])
  /\ Version "1.38" = Some [1; 38]%N
  /\ true = some_unparsable ["1.38"; "b2c3d4e"].
Proof.
  assert (Hne : ["1.38"; "b2c3d4e"] <> []) by discriminate.
  split; [exact Hne|]. split; [reflexivity|]. split; [reflexivity|].
  exact (mode_decided_by_all_names (L := lib)
           (Demo.comparing_repo false false) Demo.commits
           ["1.38"; "b2c3d4e"] ["a1b2c3d"; "b2c3d4e"] true Hne eq_refl).
Defined.

Lemma timeouts_witness :
  compare Demo.comparing = true
  /\ Version (entry_version Demo.comparing Demo.hangs false "1.50") = Some [1; 50]%N
  /\ stdout_of (fst (body Demo.comparing Demo.hangs false
                          (Some (-9)%Z, Some "timeout") "1.50"))
     = ["1.50"].
Proof.
  split; [reflexivity|]. split; [reflexivity|].
  now rewrite (timeouts_in_a_row (HL := dotted_laws) Demo.comparing Demo.hangs
                 false "1.50"
                 "builds/1.50/cppcheck  -q --enable=all --inline-suppr --suppress=missingInclude --suppress=missingIncludeSystem --suppress=unmatchedSuppression --suppress=unusedFunction --inconclusive x.c"
                 [1; 50]%N (-9) eq_refl eq_refl eq_refl eq_refl).
Defined.

End MoreRuns.
